(** * Smart Attendance System: the report engine, shallowly embedded

    The development follows [src/App.tsx] (login form, teacher dashboard
    handlers, CSV export), [src/services/geminiService.ts]
    ([identifyUnknownFace]) and the type declarations of the repository
    ([Student], [Classroom], [AttendanceRecord], [DetectedFace],
    [AttendanceReport], ...).

    Conventions of the embedding.
    - A JavaScript string is a Rocq [string]; one character stands for one
      UTF-16 code unit below 256.
    - A JavaScript array that is only ever rebuilt ([map], [filter], spread)
      is a [list].  The [attendance] array of a report is the one array the
      code also sorts in place, so reports hold a reference to it and the
      arrays live in a store ([heap]).
    - React state is an explicit record ([AppState]); every handler is a
      function from state to state.
    - Values read from the environment ([Date.now()], the remote model's
      answer, the browser's collation) are arguments. *)

From Stdlib Require Import ZArith QArith.
From stdpp Require Import base option list strings sorting gmap.

Local Open Scope string_scope.
Local Open Scope list_scope.

(** ** Strings *)

Module Js.

(** The double quote and the line feed, as one-character strings. *)
Definition dq : string := String (Ascii.ascii_of_nat 34) EmptyString.
Definition nl : string := String (Ascii.ascii_of_nat 10) EmptyString.

(** [xs.join(sep)] *)
Fixpoint join (sep : string) (xs : list string) : string :=
  match xs with
  | [] => EmptyString
  | [x] => x
  | x :: rest => x +:+ sep +:+ join sep rest
  end.

(** [s.replace] of every double quote by two double quotes (the global
    regular expression of the CSV export). *)
Fixpoint doubleQuotes (s : string) : string :=
  match s with
  | EmptyString => EmptyString
  | String c rest =>
      if decide (Ascii.nat_of_ascii c = 34%nat)
      then dq +:+ dq +:+ doubleQuotes rest
      else String c (doubleQuotes rest)
  end.

(** [s.toLowerCase()] on code units below 256: A-Z, and the Latin-1
    capitals 192-222 except the multiplication sign 215, move up by 32. *)
Definition lowerChar (c : Ascii.ascii) : Ascii.ascii :=
  let n := Ascii.nat_of_ascii c in
  if (bool_decide (65 ≤ n ≤ 90)%nat
      || (bool_decide (192 ≤ n ≤ 222)%nat && negb (bool_decide (n = 215%nat))))%bool
  then Ascii.ascii_of_nat (n + 32)%nat
  else c.

Fixpoint toLowerCase (s : string) : string :=
  match s with
  | EmptyString => EmptyString
  | String c rest => String (lowerChar c) (toLowerCase rest)
  end.

(** White space and line terminators of [String.prototype.trim] among
    the code units below 256: TAB, LF, VT, FF, CR, SP and NBSP. *)
Definition isWhiteSpace (c : Ascii.ascii) : bool :=
  let n := Ascii.nat_of_ascii c in
  (bool_decide (9 ≤ n ≤ 13)%nat || bool_decide (n = 32%nat)
   || bool_decide (n = 160%nat))%bool.

Fixpoint trimStart (s : string) : string :=
  match s with
  | EmptyString => EmptyString
  | String c rest => if isWhiteSpace c then trimStart rest else s
  end.

Fixpoint trimEnd (s : string) : string :=
  match s with
  | EmptyString => EmptyString
  | String c rest =>
      match trimEnd rest with
      | EmptyString => if isWhiteSpace c then EmptyString else String c EmptyString
      | t => String c t
      end
  end.

(** [s.trim()] *)
Definition trim (s : string) : string := trimEnd (trimStart s).

(** [xs.sort(compareFn)] as a value: a stable insertion sort.  [insert]
    calls [compareFn x y] and puts [x] first unless the answer is
    positive, so elements that compare equal keep their order, as
    ECMAScript requires.  For a consistent comparator every stable sort
    returns this list. *)
Section Sort.
Context {A : Type} (compareFn : A → A → Z).

Fixpoint insert (x : A) (l : list A) : list A :=
  match l with
  | [] => [x]
  | y :: rest =>
      if decide (compareFn x y ≤ 0)%Z then x :: l else y :: insert x rest
  end.

Fixpoint sort (l : list A) : list A :=
  match l with
  | [] => []
  | x :: rest => insert x (sort rest)
  end.
End Sort.

(** Lexicographic order on code units.  It stands for
    [String.prototype.localeCompare] in the concrete examples only: on
    the strings used there (digits, and capitalised ASCII names) every
    collation agrees with it. *)
Fixpoint codeUnitCompare (a b : string) : Z :=
  match a, b with
  | EmptyString, EmptyString => 0
  | EmptyString, String _ _ => -1
  | String _ _, EmptyString => 1
  | String x a', String y b' =>
      match Nat.compare (Ascii.nat_of_ascii x) (Ascii.nat_of_ascii y) with
      | Lt => -1
      | Gt => 1
      | Eq => codeUnitCompare a' b'
      end
  end.

End Js.

(** ** Data model (the repository's type declarations) *)

Record Student := mkStudent {
  student_id : string;
  student_name : string;
  student_rollNumber : string;
  student_password : option string;      (* [password?: string] *)
  student_imageBase64 : string;
  student_imageType : string;
  student_imageUrl : string;
}.

Record Classroom := mkClassroom {
  classroom_id : string;
  classroom_name : string;
  classroom_students : list Student;
}.

Inductive AttendanceStatus := Present | Absent.

(** The enum's string values, ['Present'] and ['Absent']. *)
Definition statusString (s : AttendanceStatus) : string :=
  match s with Present => "Present" | Absent => "Absent" end.

Record AttendanceRecord := mkRecord {
  studentId : string;
  name : string;
  rollNumber : string;
  status : AttendanceStatus;
}.

(** Box coordinates are numbers the modelled code only stores and copies. *)
Record BoundingBox := mkBox { top : Q; right : Q; bottom : Q; left : Q }.

Record DetectedFace := mkFace {
  face_id : string;
  face_name : string;
  face_box : BoundingBox;
}.

Record GeminiAttendanceResponse := mkResponse {
  present : list DetectedFace;
  unknown : list DetectedFace;
  absent : list string;
  resp_engagementSummary : string;
}.

(** A reference to an [AttendanceRecord[]] in the store. *)
Abbreviation ref := nat (only parsing).

Record AttendanceReport := mkReport {
  id : string;
  classroomId : string;
  classroomName : string;
  date : string;
  period : string;
  attendance : ref;
  capturedImageAsDataUrl : string;
  detectedFaces : list DetectedFace;
  engagementSummary : string;
}.

Global Instance AttendanceStatus_eq_dec : EqDecision AttendanceStatus.
Proof. solve_decision. Defined.
Global Instance AttendanceRecord_eq_dec : EqDecision AttendanceRecord.
Proof. solve_decision. Defined.

(** ** Application state

    The React state of [App] and [TeacherDashboard] that the handlers below
    read or write.  [store] holds the [attendance] arrays; a reference is an
    index into it, and a new array is appended at the end. *)

Abbreviation heap := (list (list AttendanceRecord)) (only parsing).

Definition readArray (h : heap) (l : ref) : list AttendanceRecord :=
  default [] (h !! l).

Record AppState := mkState {
  store : heap;
  classrooms : list Classroom;
  attendanceReports : list AttendanceReport;
  selectedClassroomId : option string;
  activeReport : option AttendanceReport;
  error : option string;
}.

(** The attendance list a report shows in a given state. *)
Definition attendanceOf (σ : AppState) (report : AttendanceReport)
  : list AttendanceRecord :=
  readArray (store σ) (attendance report).

(** Every reference held by the state points into the store. *)
Definition wellFormed (σ : AppState) : Prop :=
  Forall (λ r, attendance r < length (store σ)) (attendanceReports σ)
  ∧ (∀ r, activeReport σ = Some r → attendance r < length (store σ)).

(** [useMemo(() => classrooms.find(c => c.id === selectedClassroomId))] *)
Definition selectedClassroom (σ : AppState) : option Classroom :=
  find (λ c, bool_decide (Some (classroom_id c) = selectedClassroomId σ))
       (classrooms σ).

(** [selectedClassroom?.students ?? []] *)
Definition students (σ : AppState) : list Student :=
  match selectedClassroom σ with
  | Some c => classroom_students c
  | None => []
  end.

(** ** Login ([LoginPage.handleSubmit]) *)

Inductive Role := Teacher | StudentRole.

Record LoggedInUser := mkUser {
  role : Role;
  user_studentId : option string;
  user_classroomId : option string;
}.

(** What the submit handler leaves behind: the form's [error] text and the
    argument of [onLogin], when it was called. *)
Record LoginResult := mkLogin {
  login_error : string;
  session : option LoggedInUser;
}.

Definition selectRoleMessage : string := "Please select your role.".
Definition invalidCredentialsMessage : string :=
  "Invalid credentials. Please check your details and try again.".

(** The [for (const classroom of classrooms)] loop with its inner [find]. *)
Fixpoint studentLogin (classrooms : list Classroom) (libraryId password : string)
  : option LoggedInUser :=
  match classrooms with
  | [] => None
  | classroom :: rest =>
      match find (λ s, bool_decide (student_rollNumber s = libraryId)
                       && bool_decide (student_password s = Some password))
                 (classroom_students classroom) with
      | Some student =>
          Some (mkUser StudentRole (Some (student_id student))
                       (Some (classroom_id classroom)))
      | None => studentLogin rest libraryId password
      end
  end.

(** [selected] is the value of the role selector; [None] is its initial,
    empty value. *)
Definition handleSubmit (classrooms : list Classroom) (selected : option Role)
    (libraryId password : string) : LoginResult :=
  match selected with
  | None => mkLogin selectRoleMessage None
  | Some Teacher =>
      if bool_decide (Js.toLowerCase libraryId = "teacher")
         && bool_decide (password = "password123")
      then mkLogin EmptyString (Some (mkUser Teacher None None))
      else mkLogin invalidCredentialsMessage None
  | Some StudentRole =>
      match studentLogin classrooms libraryId password with
      | Some user => mkLogin EmptyString (Some user)
      | None => mkLogin invalidCredentialsMessage None
      end
  end.

(** ** Roster store: [handleDeleteClassroom]

    [confirmed] is the answer of [window.confirm]. *)
Definition handleDeleteClassroom (confirmed : bool) (cid : string) (σ : AppState)
  : AppState :=
  if confirmed then
    let deselect := bool_decide (selectedClassroomId σ = Some cid) in
    mkState (store σ)
            (filter (λ c, classroom_id c ≠ cid) (classrooms σ))
            (filter (λ r, classroomId r ≠ cid) (attendanceReports σ))
            (if deselect then None else selectedClassroomId σ)
            (if deselect then None else activeReport σ)
            (error σ)
  else σ.

(** ** Report engine *)

Section ReportEngine.

(** [a.localeCompare(b)], the browser's collation. *)
Variable localeCompare : string → string → Z.

(** [new Date(s).getTime()] on the [date] strings of reports, which the
    code writes with [toISOString]. *)
Variable getTime : string → Z.

(** *** Building a report ([handleTakeAttendance]) *)

(** [new Set(result.present.map(p => p.name))] *)
Definition presentNames (result : GeminiAttendanceResponse) : gset string :=
  list_to_set (map face_name (present result)).

Definition finalAttendance (students : list Student)
    (result : GeminiAttendanceResponse) : list AttendanceRecord :=
  Js.sort (λ a b, localeCompare (name a) (name b))
    (map (λ student,
            mkRecord (student_id student) (student_name student)
                     (student_rollNumber student)
                     (if bool_decide (student_name student ∈ presentNames result)
                      then Present else Absent))
         students).

(** The object literal [newReport]; [reportId] is the string built from
    [Date.now()], [now] is [new Date().toISOString()], [image] is what
    [fileToDataURL] resolves to and [attendance] the reference of the
    freshly built [finalAttendance] array. *)
Definition newReport (reportId now : string) (selected : Classroom)
    (period image : string) (attendance : ref)
    (result : GeminiAttendanceResponse) : AttendanceReport :=
  mkReport reportId (classroom_id selected) (classroom_name selected)
           now period attendance image
           (present result ++ unknown result)
           (resp_engagementSummary result).

(** [[newReport, ...prev].sort((a, b) => getTime(b.date) - getTime(a.date))] *)
Definition insertReport (report : AttendanceReport)
    (prev : list AttendanceReport) : list AttendanceReport :=
  Js.sort (λ a b, getTime (date b) - getTime (date a))%Z (report :: prev).

Definition takeAttendanceGuardMessage : string :=
  "Please select a classroom, provide a period name, and ensure the roster has students.".

(** The handler as one event: the guard, the remote call and the
    continuation after it.  [imageFile] is the uploaded file, given by its
    data URL; [outcome] is what [takeAttendanceFromImages] does, [inl msg]
    for a thrown [Error(msg)] and [inr result] for a result. *)
Definition handleTakeAttendance (imageFile : option string) (period : string)
    (outcome : string + GeminiAttendanceResponse) (reportId now : string)
    (σ : AppState) : AppState :=
  match imageFile, selectedClassroom σ with
  | Some image, Some selected =>
      if bool_decide (length (students σ) = 0) || bool_decide (period = EmptyString)
      then mkState (store σ) (classrooms σ) (attendanceReports σ)
                   (selectedClassroomId σ) (activeReport σ)
                   (Some takeAttendanceGuardMessage)
      else
        match outcome with
        | inl msg =>
            mkState (store σ) (classrooms σ) (attendanceReports σ)
                    (selectedClassroomId σ) None (Some msg)
        | inr result =>
            let report :=
              newReport reportId now selected period image
                        (length (store σ)) result in
            mkState (store σ ++ [finalAttendance (students σ) result])
                    (classrooms σ)
                    (insertReport report (attendanceReports σ))
                    (selectedClassroomId σ) (Some report) None
        end
  | _, _ =>
      mkState (store σ) (classrooms σ) (attendanceReports σ)
              (selectedClassroomId σ) (activeReport σ)
              (Some takeAttendanceGuardMessage)
  end.

(** *** Status toggle ([handleStatusChange]) *)

(** [{ ...record, status: record.status === Present ? Absent : Present }] *)
Definition toggle (record : AttendanceRecord) : AttendanceRecord :=
  mkRecord (studentId record) (name record) (rollNumber record)
           (match status record with Present => Absent | Absent => Present end).

(** [report.attendance.map(record => record.studentId === studentId ? ... : record)] *)
Definition newAttendance (sid : string) (records : list AttendanceRecord)
  : list AttendanceRecord :=
  map (λ record, if decide (studentId record = sid) then toggle record else record)
      records.

(** [{ ...report, attendance }] *)
Definition withAttendance (report : AttendanceReport) (l : ref) : AttendanceReport :=
  mkReport (id report) (classroomId report) (classroomName report)
           (date report) (period report) l (capturedImageAsDataUrl report)
           (detectedFaces report) (engagementSummary report).

(** The function passed to [setAttendanceReports]: [prevReports.map(...)].
    [active] is the [activeReport] of the closure.  Besides the new list
    it returns the store, extended with one new array per updated report,
    and the argument of the last [setActiveReport] call made inside the
    updater, if any. *)
Fixpoint statusUpdater (active : option AttendanceReport) (sid rid : string)
    (h : heap) (prevReports : list AttendanceReport)
  : heap * list AttendanceReport * option AttendanceReport :=
  match prevReports with
  | [] => (h, [], None)
  | report :: rest =>
      if decide (id report = rid) then
        let updatedReport := withAttendance report (length h) in
        let '(h', rest', later) :=
          statusUpdater active sid rid
            (h ++ [newAttendance sid (readArray h (attendance report))]) rest in
        (h', updatedReport :: rest',
         match later with
         | Some r => Some r
         | None =>
             if bool_decide (id <$> active = Some rid)
             then Some updatedReport else None
         end)
      else
        let '(h', rest', later) := statusUpdater active sid rid h rest in
        (h', report :: rest', later)
  end.

Definition handleStatusChange (sid rid : string) (σ : AppState) : AppState :=
  let '(h, reports, shown) :=
    statusUpdater (activeReport σ) sid rid (store σ) (attendanceReports σ) in
  mkState h (classrooms σ) reports (selectedClassroomId σ)
          (match shown with Some r => Some r | None => activeReport σ end)
          (error σ).

(** *** Identity confirmation ([handleSuggestionConfirm]) *)

(** [{ ...activeReport, detectedFaces: activeReport.detectedFaces.map(...) }] *)
Definition relabel (faceId newName : string) (faces : list DetectedFace)
  : list DetectedFace :=
  map (λ f, if decide (face_id f = faceId)
            then mkFace (face_id f) newName (face_box f) else f)
      faces.

Definition withDetectedFaces (report : AttendanceReport)
    (faces : list DetectedFace) : AttendanceReport :=
  mkReport (id report) (classroomId report) (classroomName report)
           (date report) (period report) (attendance report)
           (capturedImageAsDataUrl report) faces (engagementSummary report).

(** The handler queues the status updater, then a second updater that
    puts [updatedReport], a copy of the closure's [activeReport], in place
    of the report with its id.  React applies the two updaters in that
    order.  [eager] tells whether React ran the first updater at once,
    inside the handler (so that its [setActiveReport] comes before the
    handler's own), or later while rendering (so that it comes after);
    only [activeReport] depends on it. *)
Definition handleSuggestionConfirm (eager : bool) (suggestedName faceId : string)
    (σ : AppState) : AppState :=
  match find (λ s, bool_decide (student_name s = suggestedName)) (students σ),
        activeReport σ with
  | Some student, Some active =>
      let '(h, reports, shown) :=
        statusUpdater (Some active) (student_id student) (id active)
                      (store σ) (attendanceReports σ) in
      let updatedReport :=
        withDetectedFaces active
          (relabel faceId (student_name student) (detectedFaces active)) in
      mkState h (classrooms σ)
              (map (λ r, if decide (id r = id active) then updatedReport else r)
                   reports)
              (selectedClassroomId σ)
              (if eager then Some updatedReport
               else match shown with
                    | Some r => Some r
                    | None => Some updatedReport
                    end)
              (error σ)
  | _, _ => σ
  end.

(** *** CSV export ([AttendanceResultDisplay.handleDownloadCSV]) *)

Definition headers : list string := ["Roll Number"; "Student Name"; "Status"].

(** [[record.rollNumber, quoted name, record.status].join(',')] *)
Definition csvRow (record : AttendanceRecord) : string :=
  Js.join ","
    [rollNumber record;
     Js.dq +:+ Js.doubleQuotes (name record) +:+ Js.dq;
     statusString (status record)].

(** The component's [attendance] prop is the array itself: [sort] orders
    it in place and returns it.  The result is the store afterwards and
    the text of the file, [None] when the guard returns early.  The
    download's file name is not modelled. *)
Definition handleDownloadCSV (attendance : ref) (h : heap)
  : heap * option string :=
  let records := readArray h attendance in
  if bool_decide (length records = 0) then (h, None)
  else
    let sorted :=
      Js.sort (λ a b, localeCompare (rollNumber a) (rollNumber b)) records in
    (<[attendance := sorted]> h,
     Some (Js.join Js.nl (Js.join "," headers :: map csvRow sorted))).

(** A click on the download button of the report panel, which renders
    [AttendanceResultDisplay] with [attendance={activeReport.attendance}]. *)
Definition clickDownloadCSV (σ : AppState) : AppState * option string :=
  match activeReport σ with
  | Some active =>
      let '(h, file) := handleDownloadCSV (attendance active) (store σ) in
      (mkState h (classrooms σ) (attendanceReports σ) (selectedClassroomId σ)
               (activeReport σ) (error σ),
       file)
  | None => (σ, None)
  end.

End ReportEngine.

(** ** Recognition adapter: [identifyUnknownFace]

    The function talks to the remote model through
    [ai.models.generateContent].  A computation is a tree: it returns,
    throws, or issues one request and continues with the answer. *)

Record Request := mkRequest {
  req_model : string;
  req_mimeType : string;
  req_data : string;
  req_prompt : string;
  req_temperature : Q;
}.

Inductive Remote (A : Type) : Type :=
| Ret (a : A)
| Throw (message : string)
| GenerateContent (request : Request) (k : option string → Remote A).

Arguments Ret {A} a.
Arguments Throw {A} message.
Arguments GenerateContent {A} request k.

(** Running a computation against a remote model: the requests sent, in
    order, and the outcome.  The model answers a request with
    [Some text], the [text] of its response, or fails with [None]. *)
Fixpoint run {A : Type} (model : Request → option string) (c : Remote A)
  : list Request * (string + A) :=
  match c with
  | Ret a => ([], inr a)
  | Throw message => ([], inl message)
  | GenerateContent request k =>
      let '(sent, outcome) := run model (k (model request)) in
      (request :: sent, outcome)
  end.

Definition noCandidatesMessage : string := "No absent students to match against.".
Definition unableToIdentify : string := "Unable to identify".
Definition identificationFailedMessage : string := "AI identification failed.".

(** The template literal [prompt]. *)
Definition identifyPrompt (studentNames : string) : string :=
  Js.nl
  +:+ "    From the following list of absent students, who is the most likely match for the person in this image?"
  +:+ Js.nl
  +:+ "    Student List: " +:+ studentNames +:+ "." +:+ Js.nl
  +:+ "    " +:+ Js.nl
  +:+ "    Carefully analyze the image. If you can make a high-confidence guess, respond with ONLY the student's full name."
  +:+ Js.nl
  +:+ "    If you are not confident, respond with the exact string "
  +:+ Js.dq +:+ unableToIdentify +:+ Js.dq +:+ "." +:+ Js.nl
  +:+ "    Do not add any other text or explanation." +:+ Js.nl
  +:+ "  ".

Definition identifyUnknownFace (croppedImageBase64 mimeType : string)
    (absentStudents : list Student) : Remote string :=
  if bool_decide (length absentStudents = 0)
  then Ret noCandidatesMessage
  else
    let studentNames := Js.join ", " (map student_name absentStudents) in
    GenerateContent
      (mkRequest "gemini-2.5-pro" mimeType croppedImageBase64
                 (identifyPrompt studentNames) (1 # 10))
      (λ response,
         match response with
         | Some text => Ret (Js.trim text)
         | None => Throw identificationFailedMessage
         end).

(** * Vocabulary of the properties *)

(** ** Sorting *)

(** The comparator never claims both [x] after [y] and [y] after [x]. *)
Definition consistent {A : Type} (compareFn : A → A → Z) : Prop :=
  ∀ x y, (0 < compareFn x y)%Z → (compareFn y x ≤ 0)%Z.

(** [x] may stand before [y] in a list sorted with [compareFn]. *)
Definition inOrder {A : Type} (compareFn : A → A → Z) (x y : A) : Prop :=
  (compareFn x y ≤ 0)%Z.

(** [a] is at least as recent as [b]; [a] is more recent than [b]. *)
Definition notOlder (getTime : string → Z) (a b : AttendanceReport) : Prop :=
  (getTime (date b) ≤ getTime (date a))%Z.
Definition newer (getTime : string → Z) (a b : AttendanceReport) : Prop :=
  (getTime (date b) < getTime (date a))%Z.

(** ** Login *)

(** The entered credentials are those of student [s]. *)
Definition credentialsOf (libraryId password : string) (s : Student) : Prop :=
  student_rollNumber s = libraryId ∧ student_password s = Some password.

(** [s], enrolled in [classroom], is the first student with the entered
    credentials, in classroom-list order and then roster order. *)
Definition firstMatch (classrooms : list Classroom) (libraryId password : string)
    (classroom : Classroom) (s : Student) : Prop :=
  ∃ before after earlier later,
    classrooms = before ++ classroom :: after
    ∧ classroom_students classroom = earlier ++ s :: later
    ∧ (∀ c x, c ∈ before → x ∈ classroom_students c →
              ¬ credentialsOf libraryId password x)
    ∧ (∀ x, x ∈ earlier → ¬ credentialsOf libraryId password x)
    ∧ credentialsOf libraryId password s.

(** ** Reports *)

(** The record the code builds for one student. *)
Definition recordFor (result : GeminiAttendanceResponse) (s : Student)
  : AttendanceRecord :=
  mkRecord (student_id s) (student_name s) (student_rollNumber s)
           (if decide (student_name s ∈ map face_name (present result))
            then Present else Absent).

(** A data row as it appears in the file: roll id, the name between double
    quotes with its own double quotes doubled, and the status. *)
Definition csvLine (record : AttendanceRecord) : string :=
  rollNumber record +:+ "," +:+ Js.dq +:+ Js.doubleQuotes (name record)
  +:+ Js.dq +:+ "," +:+ statusString (status record).

(** The attendance of the spec's CSV example and the file the spec
    expects for it. *)
Definition csvExample : list AttendanceRecord :=
  [mkRecord "student-2" "Bob" "2" Present;
   mkRecord "student-1" "Ann, Jr." "1" Absent].

Definition csvClaimed : string :=
  Js.join Js.nl
    ["Roll Number,Student Name,Status";
     "1," +:+ Js.dq +:+ "Ann, Jr." +:+ Js.dq +:+ ",Absent";
     "2,Bob,Present"].

(** ** The persisted view of the report history

    [JSON.stringify(attendanceReports)] writes every report together with
    the contents of its attendance array.  A [snapshot] is that value: the
    report with its reference erased, and the records the reference points
    to. *)

Definition snapshot (h : heap) (report : AttendanceReport)
  : AttendanceReport * list AttendanceRecord :=
  (withAttendance report 0, readArray h (attendance report)).

Definition history (σ : AppState)
  : list (AttendanceReport * list AttendanceRecord) :=
  map (snapshot (store σ)) (attendanceReports σ).

(** The status toggle on a snapshot. *)
Definition toggledSnapshot (sid rid : string)
    (s : AttendanceReport * list AttendanceRecord)
  : AttendanceReport * list AttendanceRecord :=
  if decide (id (fst s) = rid) then (fst s, newAttendance sid (snd s)) else s.

(** ** Concrete data used by the examples below *)

Module Sample.

Definition box : BoundingBox := mkBox (1 # 10) (3 # 10) (4 # 10) (1 # 10).

Definition ann : Student :=
  mkStudent "student-1" "Ann" "2" (Some "pw-ann") "QQ==" "image/png" "blob:ann".
Definition bob : Student :=
  mkStudent "student-2" "Bob" "1" (Some "pw-bob") "Qg==" "image/png" "blob:bob".

Definition room : Classroom := mkClassroom "class-1" "Room 1" [ann; bob].

(** The recognition result of the spec's end-to-end example: Ann is
    recognised, one face is unknown. *)
Definition result : GeminiAttendanceResponse :=
  mkResponse [mkFace "face-Ann-0.1" "Ann" box]
             [mkFace "face-unknown-0.2" "Unknown" box]
             ["Bob"] "Attentive.".

(** The teacher has selected the classroom; nothing has been captured. *)
Definition initial : AppState :=
  mkState [] [room] [] (Some "class-1") None None.

(** A date parser for the examples: the digits of the string read as one
    number.  On the strings [toISOString] writes it is ordered as the times
    they denote. *)
Fixpoint digits (s : string) (acc : Z) : Z :=
  match s with
  | EmptyString => acc
  | String c rest =>
      let n := Z.of_nat (Ascii.nat_of_ascii c) in
      if ((48 <=? n) && (n <=? 57))%Z
      then digits rest (acc * 10 + (n - 48))%Z
      else digits rest acc
  end.

Definition stamp (s : string) : Z := digits s 0.

(** The state after one capture. *)
Definition captured : AppState :=
  handleTakeAttendance Js.codeUnitCompare stamp (Some "data:image/png;base64,AA==")
    "Math" (inr result) "report-1" "2024-01-01T09:00:00.000Z" initial.

End Sample.

(** * The rest of the application *)

(** ** Roster store: the other handlers of [TeacherDashboard]

    [classId] and [studentId] stand for the strings the code builds from
    [Date.now()]. *)

(** [{ ...c, name }] and [{ ...c, students }] *)
Definition withName (c : Classroom) (newName : string) : Classroom :=
  mkClassroom (classroom_id c) newName (classroom_students c).
Definition withStudents (c : Classroom) (roster : list Student) : Classroom :=
  mkClassroom (classroom_id c) (classroom_name c) roster.

Definition withClassrooms (σ : AppState) (cs : list Classroom) : AppState :=
  mkState (store σ) cs (attendanceReports σ) (selectedClassroomId σ)
          (activeReport σ) (error σ).

Definition handleAddClassroom (classId name : string) (σ : AppState) : AppState :=
  withClassrooms σ (classrooms σ ++ [mkClassroom classId name []]).

Definition emptyClassroomNameMessage : string := "Classroom name cannot be empty.".

Definition handleUpdateClassroom (cid newName : string) (σ : AppState) : AppState :=
  if bool_decide (Js.trim newName = EmptyString)
  then mkState (store σ) (classrooms σ) (attendanceReports σ)
               (selectedClassroomId σ) (activeReport σ)
               (Some emptyClassroomNameMessage)
  else withClassrooms σ
         (map (λ c, if decide (classroom_id c = cid)
                    then withName c (Js.trim newName) else c)
              (classrooms σ)).

(** [setSelectedClassroomId(id); setActiveReport(null); setError(null)];
    the period and photo inputs it also clears are not part of the state. *)
Definition handleSelectClassroom (cid : string) (σ : AppState) : AppState :=
  mkState (store σ) (classrooms σ) (attendanceReports σ) (Some cid) None None.

(** The guard [if (!selectedClassroomId) return] of the three student
    handlers: the selection, when it is a non-empty string. *)
Definition selection (σ : AppState) : option string :=
  match selectedClassroomId σ with
  | Some sel => if bool_decide (sel = EmptyString) then None else Some sel
  | None => None
  end.

Section Roster.

(** [a.localeCompare(b)], the browser's collation. *)
Variable localeCompare : string → string → Z.

(** [(a, b) => a.name.localeCompare(b.name)] *)
Definition byName (a b : Student) : Z :=
  localeCompare (student_name a) (student_name b).

(** The handler as one event; [imageBase64] is what [fileToBase64]
    resolves to, [imageType] is [file.type] and [imageUrl] the object
    URL. *)
Definition handleAddStudent (studentId name rollNumber password : string)
    (imageBase64 imageType imageUrl : string) (σ : AppState) : AppState :=
  match selection σ with
  | None => σ
  | Some sel =>
      let newStudent :=
        mkStudent studentId name rollNumber (Some password)
                  imageBase64 imageType imageUrl in
      withClassrooms σ
        (map (λ c, if decide (classroom_id c = sel)
                   then withStudents c
                          (Js.sort byName (classroom_students c ++ [newStudent]))
                   else c)
             (classrooms σ))
  end.

(** The argument [updatedData]; [data_password] is the optional field. *)
Record StudentUpdate := mkUpdate {
  data_name : string;
  data_rollNumber : string;
  data_password : option string;
}.

(** [updatedStudent]: name and roll number are overwritten, the password
    only by a truthy one. *)
Definition updatedStudent (s : Student) (updatedData : StudentUpdate) : Student :=
  mkStudent (student_id s) (data_name updatedData) (data_rollNumber updatedData)
            (match data_password updatedData with
             | Some p => if bool_decide (p = EmptyString)
                         then student_password s else Some p
             | None => student_password s
             end)
            (student_imageBase64 s) (student_imageType s) (student_imageUrl s).

Definition handleUpdateStudent (studentId : string) (updatedData : StudentUpdate)
    (σ : AppState) : AppState :=
  match selection σ with
  | None => σ
  | Some sel =>
      withClassrooms σ
        (map (λ c, if decide (classroom_id c = sel)
                   then withStudents c
                          (Js.sort byName
                             (map (λ s, if decide (student_id s = studentId)
                                        then updatedStudent s updatedData else s)
                                  (classroom_students c)))
                   else c)
             (classrooms σ))
  end.

End Roster.

Definition removeStudent (studentId : string) (σ : AppState) : AppState :=
  match selection σ with
  | None => σ
  | Some sel =>
      withClassrooms σ
        (map (λ c, if decide (classroom_id c = sel)
                   then withStudents c
                          (filter (λ s, student_id s ≠ studentId)
                                  (classroom_students c))
                   else c)
             (classrooms σ))
  end.

(** [EditStudentModal.handleSubmit]: the data passed to [onSave]. *)
Definition editStudentData (name rollNumber password : string) : StudentUpdate :=
  mkUpdate (Js.trim name) (Js.trim rollNumber)
           (if bool_decide (password = EmptyString) then None else Some password).

(** [classroomReports]: the reports listed in the teacher's history. *)
Definition classroomReports (σ : AppState) : list AttendanceReport :=
  filter (λ r, Some (classroomId r) = selectedClassroomId σ) (attendanceReports σ).

(** [handleGenerateReport]; [classroomPhoto] and [periodName] are the
    inputs of the capture panel. *)
Definition uploadPhotoMessage : string := "Please upload a classroom photo.".
Definition enterPeriodMessage : string := "Please enter a period or subject name.".

Definition handleGenerateReport (localeCompare : string → string → Z)
    (getTime : string → Z) (classroomPhoto : option string) (periodName : string)
    (outcome : string + GeminiAttendanceResponse) (reportId now : string)
    (σ : AppState) : AppState :=
  match classroomPhoto with
  | None =>
      mkState (store σ) (classrooms σ) (attendanceReports σ)
              (selectedClassroomId σ) (activeReport σ) (Some uploadPhotoMessage)
  | Some photo =>
      if bool_decide (Js.trim periodName = EmptyString)
      then mkState (store σ) (classrooms σ) (attendanceReports σ)
                   (selectedClassroomId σ) (activeReport σ)
                   (Some enterPeriodMessage)
      else handleTakeAttendance localeCompare getTime (Some photo)
             (Js.trim periodName) outcome reportId now σ
  end.

(** ** Persistence (the two effects of [App])

    [JSON.parse (JSON.stringify v)] gives back the plain data [v]; the
    saved value is modelled as that data. *)

(** A student as saved: [({ password, imageUrl, ...rest }) => rest]. *)
Record SavedStudent := mkSavedStudent {
  saved_id : string;
  saved_name : string;
  saved_rollNumber : string;
  saved_imageBase64 : string;
  saved_imageType : string;
}.

Record SavedClassroom := mkSavedClassroom {
  saved_classroom_id : string;
  saved_classroom_name : string;
  saved_students : list SavedStudent;
}.

Definition dataToSave (classrooms : list Classroom) : list SavedClassroom :=
  map (λ c, mkSavedClassroom (classroom_id c) (classroom_name c)
              (map (λ s, mkSavedStudent (student_id s) (student_name s)
                           (student_rollNumber s) (student_imageBase64 s)
                           (student_imageType s))
                   (classroom_students c)))
      classrooms.

(** The template literal of the data URL. *)
Definition imageDataUrl (imageType imageBase64 : string) : string :=
  "data:" +:+ imageType +:+ ";base64," +:+ imageBase64.

Definition loadedClassrooms (saved : list SavedClassroom) : list Classroom :=
  map (λ c, mkClassroom (saved_classroom_id c) (saved_classroom_name c)
              (map (λ s, mkStudent (saved_id s) (saved_name s)
                           (saved_rollNumber s) None (saved_imageBase64 s)
                           (saved_imageType s)
                           (imageDataUrl (saved_imageType s) (saved_imageBase64 s)))
                   (saved_students c)))
      saved.

(** Parsing the saved reports gives every report an array of its own:
    the arrays are laid out in the store in the order of the reports. *)
Fixpoint loadedReports (h : heap)
    (saved : list (AttendanceReport * list AttendanceRecord))
  : heap * list AttendanceReport :=
  match saved with
  | [] => (h, [])
  | (report, records) :: rest =>
      let '(h', reports) := loadedReports (h ++ [records]) rest in
      (h', withAttendance report (length h) :: reports)
  end.

(** The state after the page is loaded again: what the save effect wrote
    for [σ], read back by the load effect.  Selection, active report and
    error start empty. *)
Definition reload (σ : AppState) : AppState :=
  let '(h, reports) := loadedReports [] (history σ) in
  mkState h (loadedClassrooms (dataToSave (classrooms σ))) reports None None None.

(** ** Which page is shown ([App]) and the student's dashboard *)

Inductive Page :=
| SpinnerPage
| GlobalErrorPage (message : string)
| LoginPage
| TeacherDashboard
| StudentDashboard (studentId classroomId : string)
| InvalidSessionPage.

(** The part of [App] after the checks of [isInitialized] and
    [globalError]; a student id or classroom id that is missing or empty
    is falsy. *)
Definition sessionPage (loggedInUser : option LoggedInUser) : Page :=
  match loggedInUser with
  | None => LoginPage
  | Some user =>
      match role user, user_studentId user, user_classroomId user with
      | Teacher, _, _ => TeacherDashboard
      | StudentRole, Some sid, Some cid =>
          if bool_decide (sid = EmptyString) || bool_decide (cid = EmptyString)
          then InvalidSessionPage else StudentDashboard sid cid
      | StudentRole, _, _ => InvalidSessionPage
      end
  end.

(** The chain of [if]s at the end of [App]. *)
Definition App (isInitialized : bool) (globalError : option string)
    (loggedInUser : option LoggedInUser) : Page :=
  if negb isInitialized then SpinnerPage
  else
    match globalError with
    | Some message =>
        if bool_decide (message = EmptyString)
        then sessionPage loggedInUser else GlobalErrorPage message
    | None => sessionPage loggedInUser
    end.

(** [StudentDashboard]: the memoised [student]. *)
Definition dashboardStudent (sid cid : string)
    (classrooms : list Classroom) : option Student :=
  match find (λ c, bool_decide (classroom_id c = cid)) classrooms with
  | Some classroom =>
      find (λ s, bool_decide (student_id s = sid))
           (classroom_students classroom)
  | None => None
  end.

(** One line of the student's attendance history. *)
Record HistoryItem := mkItem {
  item_reportId : string;
  item_period : string;
  item_date : string;
  item_record : option AttendanceRecord;
}.

(** [StudentDashboard]: the memoised [studentRecords]; [h] is the store the
    reports' attendance arrays are read from. *)
Definition studentRecords (getTime : string → Z) (h : heap)
    (reports : list AttendanceReport) (sid cid : string)
  : list HistoryItem :=
  Js.sort (λ a b, getTime (item_date b) - getTime (item_date a))%Z
    (filter (λ item, is_Some (item_record item))
       (map (λ r, mkItem (id r) (period r) (date r)
                    (find (λ a, bool_decide (studentId a = sid))
                          (readArray h (attendance r))))
            (filter (λ r, classroomId r = cid) reports))).

(** ** The summary counters of [AttendanceResultDisplay]

    [totalStudents] is the size of the current roster, passed down by the
    report panel. *)
Definition presentCount (attendance : list AttendanceRecord) : nat :=
  length (filter (λ r, status r = Present) attendance).

Definition absentCount (totalStudents : nat) (attendance : list AttendanceRecord)
  : Z :=
  (Z.of_nat totalStudents - Z.of_nat (presentCount attendance))%Z.

(** ** More string functions *)

Module JsString.

(** [s.indexOf(c)] for a one-character [c]: the first position, or -1. *)
Fixpoint indexOf (c : Ascii.ascii) (s : string) : Z :=
  match s with
  | EmptyString => (-1)%Z
  | String x rest =>
      if decide (x = c) then 0%Z
      else let i := indexOf c rest in
           if decide (i = -1)%Z then (-1)%Z else (i + 1)%Z
  end.

(** [s.substring(start, end)]: both bounds are clamped to the string and
    swapped when [start] is the larger one. *)
Definition substring (s : string) (start finish : Z) : string :=
  let len := Z.of_nat (String.length s) in
  let a := Z.min (Z.max start 0) len in
  let b := Z.min (Z.max finish 0) len in
  String.substring (Z.to_nat (Z.min a b)) (Z.to_nat (Z.max a b - Z.min a b)) s.

(** The text before the first [c], or all of [s]: [s.split(c)[0]]. *)
Fixpoint firstPiece (c : Ascii.ascii) (s : string) : string :=
  match s with
  | EmptyString => EmptyString
  | String x rest => if decide (x = c) then EmptyString
                     else String x (firstPiece c rest)
  end.

(** [s.split(c)[1]]: the text between the first and the second [c];
    [None] is [undefined], when [s] holds no [c]. *)
Fixpoint secondPiece (c : Ascii.ascii) (s : string) : option string :=
  match s with
  | EmptyString => None
  | String x rest => if decide (x = c) then Some (firstPiece c rest)
                     else secondPiece c rest
  end.

(** [hay.includes(needle)] *)
Fixpoint includes (needle hay : string) : bool :=
  String.prefix needle hay
  || match hay with
     | EmptyString => false
     | String _ rest => includes needle rest
     end.

(** [s.replace(/[^a-z0-9]/gi, '_')]: without the unicode flag the
    case-insensitive class holds the ASCII letters and digits only. *)
Definition isAlphaNumeric (c : Ascii.ascii) : bool :=
  let n := Ascii.nat_of_ascii c in
  (bool_decide (48 ≤ n ≤ 57)%nat || bool_decide (65 ≤ n ≤ 90)%nat
   || bool_decide (97 ≤ n ≤ 122)%nat)%bool.

Fixpoint replaceNonAlphaNumeric (s : string) : string :=
  match s with
  | EmptyString => EmptyString
  | String c rest =>
      String (if isAlphaNumeric c then c else Ascii.ascii_of_nat 95)
             (replaceNonAlphaNumeric rest)
  end.

End JsString.

(** ** Data URLs ([cropImage], [fileToBase64]) *)

(** [imageUrl.substring(5, imageUrl.indexOf(';')) || 'image/jpeg'] *)
Definition cropMimeType (imageUrl : string) : string :=
  let m := JsString.substring imageUrl 5
             (JsString.indexOf (Ascii.ascii_of_nat 59) imageUrl) in
  if bool_decide (m = EmptyString) then "image/jpeg" else m.

(** [dataUrl.split(',')[1]], the value [fileToBase64] resolves to and the
    [base64] field of a crop. *)
Definition base64Part (dataUrl : string) : option string :=
  JsString.secondPiece (Ascii.ascii_of_nat 44) dataUrl.

(** ** The name of the downloaded file ([handleDownloadCSV])

    [safeClassroomName] and [safePeriod], the parts of the file name made
    from the classroom name and from the period. *)
Definition safeName (s : string) : string :=
  Js.toLowerCase (JsString.replaceNonAlphaNumeric s).

(** ** Asking for an identification ([handleIdentifyClick]) *)

(** Sequencing of remote computations ([await]). *)
Fixpoint andThen {A B : Type} (c : Remote A) (f : A → Remote B) : Remote B :=
  match c with
  | Ret a => f a
  | Throw message => Throw message
  | GenerateContent request k => GenerateContent request (λ r, andThen (k r) f)
  end.

(** What [cropImage] resolves to. *)
Record Cropped := mkCropped {
  crop_dataUrl : string;
  crop_base64 : string;
  crop_mimeType : string;
}.

(** The value of the [identifyingFace] state. *)
Record IdentifyingFace := mkIdentifying {
  identifying_face : DetectedFace;
  suggestion : option string;
  identifying_image : string;
}.

(** [new Set(activeReport.attendance.filter(...).map(r => r.name))] *)
Definition absentStudentNames (records : list AttendanceRecord) : gset string :=
  list_to_set (map name (filter (λ r, status r = Absent) records)).

(** [students.filter(s => absentStudentNames.has(s.name))] *)
Definition absentStudents (σ : AppState) (active : AttendanceReport)
  : list Student :=
  filter (λ s, student_name s ∈ absentStudentNames (attendanceOf σ active))
         (students σ).

(** [cropped] is what [cropImage] does: [inl message] when it rejects (the
    message the handler then shows), [inr] its result.  The computation
    returns [None] when there is no active report, and otherwise the new
    [identifyingFace]; a thrown message is the one passed to [setError]. *)
Definition handleIdentifyClick (cropped : string + Cropped) (face : DetectedFace)
    (σ : AppState) : Remote (option IdentifyingFace) :=
  match activeReport σ with
  | None => Ret None
  | Some active =>
      match cropped with
      | inl message => Throw message
      | inr crop =>
          andThen
            (identifyUnknownFace (crop_base64 crop) (crop_mimeType crop)
                                 (absentStudents σ active))
            (λ answer,
               Ret (Some (mkIdentifying face (Some answer) (crop_dataUrl crop))))
      end
  end.

(** [SuggestionModal]: whether the dialog shows the suggestion with its
    Confirm button, rather than the unable-to-identify notice. *)
Definition offersConfirm (result : IdentifyingFace) : bool :=
  match suggestion result with
  | Some s => negb (bool_decide (s = EmptyString))
              && negb (bool_decide (s = "Unable to identify"))
  | None => false
  end.

(** ** Recognition adapter: [takeAttendanceFromImages] *)

(** One part of the request. *)
Inductive Part :=
| TextPart (text : string)
| InlineData (mimeType data : string).

(** [students.flatMap(student => [caption, photo])] *)
Definition studentImageParts (students : list Student) : list Part :=
  flat_map (λ student,
              [TextPart ("Roster photo for student named: " +:+ student_name student);
               InlineData (student_imageType student) (student_imageBase64 student)])
           students.

(** A face as the remote model describes it, before it gets an id. *)
Record RawFace := mkRawFace { raw_name : string; raw_box : BoundingBox }.

Record RawResponse := mkRaw {
  raw_present : list RawFace;
  raw_unknown : list RawFace;
  raw_absent : list string;
  raw_engagementSummary : string;
}.

Definition invalidKeyMessage : string :=
  "The Gemini API key is not valid or has insufficient permissions. Please check your key and try again.".
Definition noValidResponseMessage : string :=
  "Failed to get a valid response from the AI. The model may be unable to process the request. Please try a different photo or check the student roster.".

(** The [catch] block; [message] is the message of the caught error (a
    caught value that is not an [Error] counts as one with the empty
    message). *)
Definition attendanceError (message : string) : string :=
  if JsString.includes "API key not valid" message
     || JsString.includes "permission denied" message
  then invalidKeyMessage else noValidResponseMessage.

(** [xs.map(p => ({ ...p, id: prefix(p) + Math.random() }))]; [random i]
    is the text of the [i]-th random number drawn. *)
Fixpoint withIds (prefix : RawFace → string) (random : nat → string) (i : nat)
    (faces : list RawFace) : list DetectedFace :=
  match faces with
  | [] => []
  | p :: rest =>
      mkFace (prefix p +:+ random i) (raw_name p) (raw_box p)
      :: withIds prefix random (S i) rest
  end.

(** The [try] block after the request is built.  [called] is what
    [generateContent] does, [inl message] for a failure and [inr text] for
    the text of the answer; [parse] is [JSON.parse], with [inl message] for
    a text that does not parse to the response shape. *)
Definition takeAttendanceFromImages (called : string + string)
    (parse : string → string + RawResponse) (random : nat → string)
  : string + GeminiAttendanceResponse :=
  match called with
  | inl message => inl (attendanceError message)
  | inr text =>
      match parse (Js.trim text) with
      | inl message => inl (attendanceError message)
      | inr result =>
          inr (mkResponse
                 (withIds (λ p, "face-" +:+ raw_name p +:+ "-") random 0
                          (raw_present result))
                 (withIds (λ _, "face-unknown-") random
                          (length (raw_present result)) (raw_unknown result))
                 (raw_absent result) (raw_engagementSummary result))
      end
  end.

(** ** The add-student form ([AddStudentForm.handleSubmit]) *)

(** The chosen file, by what the handlers read of it: [fileToBase64], its
    [type] and its object URL. *)
Record UploadedFile := mkFile {
  file_base64 : string;
  file_type : string;
  file_url : string;
}.

(** [canSubmit]: every text field is non-blank, a file is chosen and the
    form is not disabled. *)
Definition canSubmit (name rollNumber password : string)
    (file : option UploadedFile) (isDisabled : bool) : bool :=
  negb (bool_decide (Js.trim name = EmptyString))
  && negb (bool_decide (Js.trim rollNumber = EmptyString))
  && negb (bool_decide (Js.trim password = EmptyString))
  && bool_decide (is_Some file) && negb isDisabled.

(** Submitting the form: [onAddStudent] with the trimmed fields, or
    nothing. *)
Definition submitAddStudent (localeCompare : string → string → Z)
    (studentId name rollNumber password : string) (file : option UploadedFile)
    (isDisabled : bool) (σ : AppState) : AppState :=
  match file with
  | Some f =>
      if canSubmit name rollNumber password file isDisabled
      then handleAddStudent localeCompare studentId (Js.trim name)
             (Js.trim rollNumber) (Js.trim password)
             (file_base64 f) (file_type f) (file_url f) σ
      else σ
  | None => σ
  end.

(** ** Reading a CSV field back

    The inverse a CSV reader applies to a quoted field: every pair of
    double quotes stands for one. *)
Fixpoint collapseQuotes (s : string) : string :=
  match s with
  | EmptyString => EmptyString
  | String c rest =>
      if decide (Ascii.nat_of_ascii c = 34%nat)
      then match rest with
           | String c' rest' =>
               if decide (Ascii.nat_of_ascii c' = 34%nat)
               then String c (collapseQuotes rest')
               else String c (collapseQuotes rest)
           | EmptyString => String c EmptyString
           end
      else String c (collapseQuotes rest)
  end.

(** ** Vocabulary of the further properties *)

(** [a] may stand before [b] in a roster sorted by name. *)
Definition nameOrder (localeCompare : string → string → Z) (a b : Student) : Prop :=
  (localeCompare (student_name a) (student_name b) ≤ 0)%Z.

(** Every roster of the state is in name order. *)
Definition rostersInNameOrder (localeCompare : string → string → Z)
    (σ : AppState) : Prop :=
  Forall (λ c, StronglySorted (nameOrder localeCompare) (classroom_students c))
         (classrooms σ).

(** The collation orders names transitively. *)
Definition transitiveOrder (localeCompare : string → string → Z) : Prop :=
  ∀ a b c, (localeCompare a b ≤ 0)%Z → (localeCompare b c ≤ 0)%Z →
           (localeCompare a c ≤ 0)%Z.

(** A lower-case ASCII letter, a digit or an underscore. *)
Definition isFileNameChar (c : Ascii.ascii) : bool :=
  let n := Ascii.nat_of_ascii c in
  (bool_decide (48 ≤ n ≤ 57)%nat || bool_decide (97 ≤ n ≤ 122)%nat
   || bool_decide (n = 95%nat))%bool.

(** * Properties *)

(** ** The array sort *)

Section SortFacts.
Context {A : Type} (compareFn : A → A → Z).

Lemma insert_Permutation x l : Js.insert compareFn x l ≡ₚ x :: l.
Proof.
  induction l as [|y l IH]; simpl; [done|].
  case_decide; [done|].
  rewrite IH. apply Permutation_swap.
Qed.

Lemma sort_Permutation l : Js.sort compareFn l ≡ₚ l.
Proof.
  induction l as [|x l IH]; simpl; [done|].
  by rewrite insert_Permutation, IH.
Qed.

Lemma sort_length l : length (Js.sort compareFn l) = length l.
Proof. by rewrite sort_Permutation. Qed.

Lemma insert_Sorted x l :
  consistent compareFn → Sorted (inOrder compareFn) l →
  Sorted (inOrder compareFn) (Js.insert compareFn x l).
Proof.
  intros Hc. induction 1 as [|y l Hl IH Hhd]; simpl.
  - repeat constructor.
  - case_decide as Hxy.
    + constructor; [by constructor|]. by constructor.
    + constructor; [done|].
      destruct Hhd as [|z l Hyz]; simpl.
      * constructor. apply Hc. unfold inOrder in *. lia.
      * case_decide; constructor; [|done].
        apply Hc. lia.
Qed.

Lemma sort_Sorted l :
  consistent compareFn → Sorted (inOrder compareFn) (Js.sort compareFn l).
Proof.
  intros Hc. induction l as [|x l IH]; simpl; [constructor|].
  by apply insert_Sorted.
Qed.
End SortFacts.

(** ** [Array.prototype.find] *)

Lemma find_Some_first {A} (f : A → bool) (l : list A) (x : A) :
  find f l = Some x ↔
  ∃ l1 l2, l = l1 ++ x :: l2 ∧ f x = true ∧ ∀ y, y ∈ l1 → f y = false.
Proof.
  induction l as [|a l IH]; simpl.
  - split; [done|]. intros (l1 & l2 & Heq & _). by destruct l1.
  - destruct (f a) eqn:Hfa.
    + split.
      * intros [= ->]. exists [], l. split_and!; [done|done|].
        intros y Hy. by apply elem_of_nil in Hy.
      * intros (l1 & l2 & Heq & Hx & Hl1). destruct l1 as [|b l1].
        -- by injection Heq as ->.
        -- injection Heq as -> _.
           rewrite Hl1 in Hfa; [done|]. apply elem_of_cons; by left.
    + rewrite IH. split.
      * intros (l1 & l2 & -> & Hx & Hl1). exists (a :: l1), l2.
        split_and!; [done|done|].
        intros y [->|Hy]%elem_of_cons; [done|by apply Hl1].
      * intros (l1 & l2 & Heq & Hx & Hl1). destruct l1 as [|b l1].
        -- injection Heq as -> _. congruence.
        -- injection Heq as -> ->. exists l1, l2. split_and!; [done|done|].
           intros y Hy. apply Hl1, elem_of_cons. by right.
Qed.

Lemma find_None_all {A} (f : A → bool) (l : list A) :
  find f l = None ↔ ∀ y, y ∈ l → f y = false.
Proof.
  induction l as [|a l IH]; simpl.
  - split; [|done]. intros _ y Hy. by apply elem_of_nil in Hy.
  - destruct (f a) eqn:Hfa.
    + split; [done|]. intros H. rewrite H in Hfa; [done|].
      apply elem_of_cons; by left.
    + rewrite IH. split.
      * intros H y [->|Hy]%elem_of_cons; [done|by apply H].
      * intros H y Hy. apply H, elem_of_cons. by right.
Qed.

Lemma first_split_unique {A} (P : A → Prop) (l1 : list A) x l2 e y l :
  l1 ++ x :: l2 = e ++ y :: l →
  (∀ z, z ∈ l1 → ¬ P z) → (∀ z, z ∈ e → ¬ P z) → P x → P y →
  l1 = e ∧ x = y.
Proof.
  intros Heq Hl1 He Hx Hy. revert e Heq He.
  induction l1 as [|a l1 IH]; intros [|b e] Heq He; simpl in *.
  - by injection Heq as -> _.
  - injection Heq as Hxb _. exfalso. apply (He b); [|by subst].
    apply elem_of_cons; by left.
  - injection Heq as Hay _. exfalso. apply (Hl1 a); [|by subst].
    apply elem_of_cons; by left.
  - injection Heq as -> Heq.
    destruct (IH (λ z Hz, Hl1 z ltac:(apply elem_of_cons; by right)) e Heq
                 (λ z Hz, He z ltac:(apply elem_of_cons; by right))) as [-> ->].
    done.
Qed.

(** ** Login *)

Lemma credentials_test libraryId password s :
  bool_decide (student_rollNumber s = libraryId)
  && bool_decide (student_password s = Some password) = true
  ↔ credentialsOf libraryId password s.
Proof.
  unfold credentialsOf.
  rewrite andb_true_iff, !bool_decide_eq_true. done.
Qed.

Lemma credentials_test_false libraryId password s :
  bool_decide (student_rollNumber s = libraryId)
  && bool_decide (student_password s = Some password) = false
  ↔ ¬ credentialsOf libraryId password s.
Proof. rewrite <- credentials_test. by destruct (_ && _). Qed.

Lemma studentLogin_Some classrooms libraryId password user :
  studentLogin classrooms libraryId password = Some user ↔
  ∃ classroom s,
    firstMatch classrooms libraryId password classroom s
    ∧ user = mkUser StudentRole (Some (student_id s)) (Some (classroom_id classroom)).
Proof.
  induction classrooms as [|c cs IH]; simpl.
  - split; [done|]. intros (? & ? & (b & ? & ? & ? & Heq & _) & _).
    by destruct b.
  - destruct (find _ (classroom_students c)) as [s|] eqn:Hfind.
    + apply find_Some_first in Hfind as (l1 & l2 & Hst & Hs & Hl1).
      apply credentials_test in Hs. split.
      * intros [= <-]. exists c, s. split; [|done].
        exists [], cs, l1, l2. split_and!; try done.
        -- intros ? ? Hin. by apply elem_of_nil in Hin.
        -- intros x Hx. by apply credentials_test_false, Hl1.
      * intros (c' & s' & (b & a & e & l & Heq & Hst' & Hb & He & Hs') & ->).
        destruct b as [|c0 b].
        -- injection Heq as <- <-.
           rewrite Hst in Hst'.
           destruct (first_split_unique (credentialsOf libraryId password)
                       l1 s l2 e s' l Hst') as [_ ->]; try done.
           intros x Hx. by apply credentials_test_false, Hl1.
        -- injection Heq as <- ->. exfalso.
           apply (Hb c s); [apply elem_of_cons; by left| |done].
           rewrite Hst. apply elem_of_app. right. apply elem_of_cons; by left.
    + rewrite IH. rewrite find_None_all in Hfind.
      split.
      * intros (c' & s' & (b & a & e & l & -> & Hst' & Hb & He & Hs') & ->).
        exists c', s'. split; [|done].
        exists (c :: b), a, e, l. split_and!; try done.
        intros c0 x [->|Hin]%elem_of_cons Hx.
        -- by apply credentials_test_false, Hfind.
        -- by eapply Hb.
      * intros (c' & s' & (b & a & e & l & Heq & Hst' & Hb & He & Hs') & ->).
        destruct b as [|c0 b].
        -- injection Heq as <- <-. exfalso.
           assert (Hf : s' ∈ classroom_students c).
           { rewrite Hst'. apply elem_of_app. right. apply elem_of_cons; by left. }
           apply Hfind in Hf. by apply credentials_test_false in Hf.
        -- injection Heq as <- ->.
           exists c', s'. split; [|done].
           exists b, a, e, l. split_and!; try done.
           intros c1 x Hin. apply Hb, elem_of_cons. by right.
Qed.

Lemma studentLogin_None classrooms libraryId password :
  studentLogin classrooms libraryId password = None ↔
  ∀ c s, c ∈ classrooms → s ∈ classroom_students c →
         ¬ credentialsOf libraryId password s.
Proof.
  induction classrooms as [|c cs IH]; simpl.
  - split; [|done]. intros _ ? ? Hin. by apply elem_of_nil in Hin.
  - destruct (find _ (classroom_students c)) as [s|] eqn:Hfind.
    + apply find_Some_first in Hfind as (l1 & l2 & Hst & Hs & Hl1).
      apply credentials_test in Hs. split; [done|]. intros H. exfalso.
      apply (H c s); [apply elem_of_cons; by left| |done].
      rewrite Hst. apply elem_of_app. right. apply elem_of_cons; by left.
    + rewrite IH. rewrite find_None_all in Hfind. split.
      * intros H c0 x [->|Hin]%elem_of_cons Hx.
        -- by apply credentials_test_false, Hfind.
        -- by eapply H.
      * intros H c0 x Hin. apply H, elem_of_cons. by right.
Qed.

(** ** Login: the claims *)

(** C10 as stated fails: with no role selected the handler reports the
    missing role, not invalid credentials, whatever the credentials are. *)
Lemma login_without_role_counterexample :
  let outcome := handleSubmit [Sample.room] None "teacher" "password123" in
  session outcome ≠ Some (mkUser Teacher None None)
  ∧ login_error outcome ≠ invalidCredentialsMessage.
Proof. by vm_compute. Qed.

(** Side conditions that hold because a session and an error never occur
    together. *)
Ltac login_side :=
  try done;
  try (by intros ? [= <-]);
  try (by intros [[=] _]);
  try (by intros [? [=]]);
  try (by intros [_ ?]).

(** C10, amended.  With the teacher role selected, login succeeds, as
    teacher, exactly when the lower-cased library id is [teacher] and the
    password is [password123].  With the student role selected, it succeeds
    exactly when some student has the entered roll number and password, and
    the session is the first such student in classroom-list order.  With no
    role selected the error is the select-your-role message.  Every other
    input yields the invalid-credentials error; no session is created
    together with an error. *)
Theorem login_outcome (classrooms : list Classroom) (selected : option Role)
    (libraryId password : string) :
  let outcome := handleSubmit classrooms selected libraryId password in
  match selected with
  | None => outcome = mkLogin selectRoleMessage None
  | Some Teacher =>
      (session outcome = Some (mkUser Teacher None None)
       ↔ Js.toLowerCase libraryId = "teacher" ∧ password = "password123")
      ∧ (∀ user, session outcome = Some user → user = mkUser Teacher None None)
  | Some StudentRole =>
      (∀ user, session outcome = Some user ↔
         ∃ classroom s,
           firstMatch classrooms libraryId password classroom s
           ∧ user = mkUser StudentRole (Some (student_id s))
                           (Some (classroom_id classroom)))
      ∧ (is_Some (session outcome) ↔
         ∃ c s, c ∈ classrooms ∧ s ∈ classroom_students c
                ∧ credentialsOf libraryId password s)
  end
  ∧ (is_Some (session outcome) → login_error outcome = EmptyString)
  ∧ (session outcome = None ∧ selected ≠ None →
     login_error outcome = invalidCredentialsMessage).
Proof.
  destruct selected as [[]|]; simpl.
  - destruct (bool_decide (Js.toLowerCase libraryId = "teacher")
              && bool_decide (password = "password123")) eqn:Hc; simpl.
    + apply andb_true_iff in Hc as [?%bool_decide_eq_true ?%bool_decide_eq_true].
      split_and!; login_side.
    + apply andb_false_iff in Hc. split_and!; login_side.
      split; [done|]. intros [H1 H2].
      destruct Hc as [Hc|Hc]; apply bool_decide_eq_false in Hc; done.
  - destruct (studentLogin classrooms libraryId password) as [u|] eqn:Hlogin; simpl.
    + split_and!; login_side.
      * intros user. rewrite <- studentLogin_Some, Hlogin. done.
      * split; [|by eauto]. intros _.
        apply studentLogin_Some in Hlogin
          as (c & s & (b & a & e & l & -> & Hst & _ & _ & Hs) & _).
        exists c, s. split_and!; [| |done].
        -- apply elem_of_app. right. apply elem_of_cons; by left.
        -- rewrite Hst. apply elem_of_app. right. apply elem_of_cons; by left.
    + split_and!; login_side.
      * intros user. rewrite <- studentLogin_Some, Hlogin. done.
      * split; [by intros [? [=]]|]. intros (c & s & Hc & Hs & Hm). exfalso.
        by eapply studentLogin_None.
  - split_and!; login_side.
Qed.

Lemma login_outcome_witness :
  session (handleSubmit [Sample.room] (Some StudentRole) "1" "pw-bob")
  = Some (mkUser StudentRole (Some "student-2") (Some "class-1"))
  ∧ login_error (handleSubmit [Sample.room] (Some StudentRole) "1" "pw-bob")
    = EmptyString.
Proof.
  split; [reflexivity|].
  apply (login_outcome [Sample.room] (Some StudentRole) "1" "pw-bob").
  vm_compute. eauto.
Defined.

(** ** Cascading classroom deletion *)

(** C7.  Deleting a classroom removes from the history exactly the reports
    whose [classroomId] is the deleted id, keeps all others in their order,
    and removes the classroom from the classroom list. *)
Theorem deleteClassroom_cascade (cid : string) (σ : AppState) :
  let σ' := handleDeleteClassroom true cid σ in
  (∀ r, r ∈ attendanceReports σ' ↔ r ∈ attendanceReports σ ∧ classroomId r ≠ cid)
  ∧ attendanceReports σ' `sublist_of` attendanceReports σ
  ∧ filter (λ r, classroomId r ≠ cid) (attendanceReports σ') =
    filter (λ r, classroomId r ≠ cid) (attendanceReports σ)
  ∧ (∀ c, c ∈ classrooms σ' ↔ c ∈ classrooms σ ∧ classroom_id c ≠ cid)
  ∧ store σ' = store σ.
Proof.
  simpl. split_and!.
  - intros r. rewrite list_elem_of_filter. tauto.
  - apply sublist_filter.
  - induction (attendanceReports σ) as [|r rs IH]; [done|].
    rewrite !filter_cons. case_decide; [|done].
    rewrite filter_cons. case_decide; [|done]. by f_equal.
  - intros c. rewrite list_elem_of_filter. tauto.
  - done.
Qed.

(** ** Identifying an unknown face *)

(** C9 as stated fails: the text of the remote answer is trimmed and
    returned as it is, so the result need not be a candidate name nor the
    unable-to-identify sentinel. *)
Lemma identify_unvalidated_counterexample :
  let candidates := [Sample.bob] in
  let model := (λ _ : Request, Some " Zed ") in
  snd (run model (identifyUnknownFace "AA==" "image/png" candidates)) = inr "Zed"
  ∧ ("Zed" ∉ map student_name candidates)
  ∧ "Zed" ≠ unableToIdentify.
Proof.
  split_and!; [reflexivity| |done].
  intros [[=]|[]%elem_of_nil]%elem_of_cons.
Qed.

(** C9, amended.  With no candidate the operation returns the fixed
    no-candidates sentinel and sends no request.  With candidates it sends
    exactly one request, whose prompt lists the candidate names, and its
    result is the trimmed text of the answer, whatever that text is; when
    the call fails it throws the identification-failed error. *)
Theorem identifyUnknownFace_outcome (model : Request → option string)
    (image mimeType : string) (candidates : list Student) :
  (candidates = [] →
     identifyUnknownFace image mimeType candidates = Ret noCandidatesMessage
     ∧ run model (identifyUnknownFace image mimeType candidates)
       = ([], inr noCandidatesMessage))
  ∧ (candidates ≠ [] →
     ∃ request,
       req_data request = image
       ∧ req_mimeType request = mimeType
       ∧ req_prompt request
         = identifyPrompt (Js.join ", " (map student_name candidates))
       ∧ run model (identifyUnknownFace image mimeType candidates)
         = ([request],
            match model request with
            | Some text => inr (Js.trim text)
            | None => inl identificationFailedMessage
            end)).
Proof.
  split.
  - by intros ->.
  - intros Hne. unfold identifyUnknownFace.
    rewrite bool_decide_eq_false_2; [|by destruct candidates].
    exists (mkRequest "gemini-2.5-pro" mimeType image
              (identifyPrompt (Js.join ", " (map student_name candidates)))
              (1 # 10)).
    split_and!; [reflexivity..|].
    simpl. by destruct (model _).
Qed.

Lemma identifyUnknownFace_outcome_witness :
  run (λ _, Some "Bob ") (identifyUnknownFace "AA==" "image/png" []) =
    ([], inr noCandidatesMessage)
  ∧ ∃ request,
      run (λ _, Some "Bob ") (identifyUnknownFace "AA==" "image/png" [Sample.bob]) =
        ([request], inr "Bob").
Proof.
  destruct (identifyUnknownFace_outcome (λ _, Some "Bob ") "AA==" "image/png" [])
    as [Hempty _].
  destruct (identifyUnknownFace_outcome (λ _, Some "Bob ") "AA==" "image/png"
              [Sample.bob]) as [_ Hsome].
  split.
  - apply Hempty. reflexivity.
  - destruct Hsome as (request & _ & _ & _ & Hrun); [done|].
    exists request. exact Hrun.
Defined.

(** ** Identity confirmation without a matching student *)

(** C8.  When no student of the current roster has the confirmed name,
    the handler changes nothing: the store of attendance arrays, every
    report with its detected faces, and the active report stay as they
    are. *)
Theorem resolveUnknownFace_no_match (eager : bool) (confirmedName faceId : string)
    (σ : AppState) :
  (∀ s, s ∈ students σ → student_name s ≠ confirmedName) →
  let σ' := handleSuggestionConfirm eager confirmedName faceId σ in
  σ' = σ
  ∧ ∀ report, attendanceOf σ' report = attendanceOf σ report.
Proof.
  intros Hnone. unfold handleSuggestionConfirm.
  assert (find (λ s, bool_decide (student_name s = confirmedName)) (students σ)
          = None) as ->; [|done].
  apply find_None_all. intros s Hs. apply bool_decide_eq_false. by apply Hnone.
Qed.

Lemma resolveUnknownFace_no_match_witness :
  handleSuggestionConfirm true "Zed" "face-unknown-0.2" Sample.captured
  = Sample.captured.
Proof.
  apply (resolveUnknownFace_no_match true "Zed" "face-unknown-0.2" Sample.captured).
  intros s Hs. vm_compute in Hs.
  apply elem_of_cons in Hs as [->|Hs]; [done|].
  apply elem_of_cons in Hs as [->|Hs]; [done|].
  by apply elem_of_nil in Hs.
Defined.

(** ** The store *)

Lemma readArray_app_l (h ext : heap) (l : ref) :
  l < length h → readArray (h ++ ext) l = readArray h l.
Proof. intros Hl. unfold readArray. by rewrite lookup_app_l. Qed.

Lemma readArray_fresh (h : heap) (records : list AttendanceRecord) :
  readArray (h ++ [records]) (length h) = records.
Proof.
  unfold readArray. rewrite lookup_app_r by lia.
  by rewrite Nat.sub_diag.
Qed.

(** ** Building a report *)

Section BuildReport.
Variable localeCompare : string → string → Z.
Variable getTime : string → Z.

Lemma finalAttendance_Permutation roster result :
  finalAttendance localeCompare roster result ≡ₚ map (recordFor result) roster.
Proof.
  unfold finalAttendance. rewrite sort_Permutation.
  apply reflexive_eq. apply map_ext. intros s. unfold recordFor.
  f_equal. unfold presentNames.
  destruct (bool_decide _) eqn:Hb.
  - apply bool_decide_eq_true in Hb. apply elem_of_list_to_set in Hb.
    by rewrite decide_True.
  - apply bool_decide_eq_false in Hb. rewrite elem_of_list_to_set in Hb.
    by rewrite decide_False.
Qed.

(** When the guard passes and the remote call returns, the handler
    appends the new attendance array to the store, inserts the new
    report and shows it. *)
Lemma handleTakeAttendance_success image period result reportId now σ :
  students σ ≠ [] → period ≠ EmptyString →
  ∃ selected,
    selectedClassroom σ = Some selected
    ∧ handleTakeAttendance localeCompare getTime (Some image) period
        (inr result) reportId now σ
      = let report := newReport reportId now selected period image
                                (length (store σ)) result in
        mkState (store σ ++ [finalAttendance localeCompare (students σ) result])
                (classrooms σ)
                (insertReport getTime report (attendanceReports σ))
                (selectedClassroomId σ) (Some report) None.
Proof.
  intros Hst Hp. unfold handleTakeAttendance.
  destruct (selectedClassroom σ) as [selected|] eqn:Hsel.
  - exists selected. split; [done|].
    rewrite (bool_decide_eq_false_2 (length (students σ) = 0))
      by (by destruct (students σ)).
    by rewrite (bool_decide_eq_false_2 (period = EmptyString)).
  - unfold students in Hst. by rewrite Hsel in Hst.
Qed.

Lemma insertReport_elem report prev :
  report ∈ insertReport getTime report prev.
Proof.
  unfold insertReport. rewrite sort_Permutation. apply elem_of_cons. by left.
Qed.
End BuildReport.

(** C2.  A successful capture produces a report whose attendance list has
    exactly one record per enrolled student: it is a rearrangement of the
    roster's records, so its length is the number of students and its
    student ids are those of the roster, pairwise distinct when the
    roster's ids are.  A record is Present exactly when its student's name
    occurs among the names of the recognition result's present list, and
    Absent otherwise. *)
Theorem buildReport_attendance (localeCompare : string → string → Z)
    (getTime : string → Z) (image period : string)
    (result : GeminiAttendanceResponse) (reportId now : string) (σ : AppState) :
  students σ ≠ [] → period ≠ EmptyString →
  let σ' := handleTakeAttendance localeCompare getTime (Some image) period
              (inr result) reportId now σ in
  ∃ report,
    activeReport σ' = Some report
    ∧ report ∈ attendanceReports σ'
    ∧ attendanceOf σ' report ≡ₚ map (recordFor result) (students σ)
    ∧ length (attendanceOf σ' report) = length (students σ)
    ∧ map studentId (attendanceOf σ' report) ≡ₚ map student_id (students σ)
    ∧ (NoDup (map student_id (students σ)) →
       NoDup (map studentId (attendanceOf σ' report)))
    ∧ ∀ record, record ∈ attendanceOf σ' report →
        (status record = Present ↔
           name record ∈ map face_name (present result))
        ∧ (status record = Absent ↔
           name record ∉ map face_name (present result)).
Proof.
  intros Hst Hp σ'.
  destruct (handleTakeAttendance_success localeCompare getTime image period
              result reportId now σ Hst Hp) as (selected & Hsel & Heq).
  subst σ'. rewrite Heq. clear Heq. simpl.
  eexists. split; [reflexivity|].
  split; [apply insertReport_elem|].
  unfold attendanceOf. simpl. rewrite readArray_fresh.
  pose proof (finalAttendance_Permutation localeCompare (students σ) result)
    as Hperm.
  assert (Hids : map studentId (finalAttendance localeCompare (students σ) result)
                 ≡ₚ map student_id (students σ)).
  { rewrite Hperm. rewrite map_map. done. }
  split_and!.
  - done.
  - by rewrite Hperm, length_map.
  - done.
  - intros Hnd. by rewrite Hids.
  - intros record Hin. rewrite Hperm in Hin.
    apply list_elem_of_fmap in Hin as (s & -> & _). unfold recordFor. simpl.
    case_decide; split; split; try done.
Qed.

Lemma buildReport_attendance_witness :
  ∃ report,
    activeReport Sample.captured = Some report
    ∧ map (λ r, (name r, status r)) (attendanceOf Sample.captured report)
      = [("Ann", Present); ("Bob", Absent)]
    ∧ length (detectedFaces report) = 2.
Proof.
  destruct (buildReport_attendance Js.codeUnitCompare Sample.stamp
              "data:image/png;base64,AA==" "Math" Sample.result "report-1"
              "2024-01-01T09:00:00.000Z" Sample.initial)
    as (report & Hactive & _); [done|done|].
  exists report. vm_compute in Hactive. injection Hactive as <-.
  split_and!; reflexivity.
Defined.

(** ** Order of the report history *)

Lemma Sorted_weaken {A} (R R' : A → A → Prop) (l : list A) :
  (∀ a b, R a b → R' a b) → Sorted R l → Sorted R' l.
Proof.
  intros Himpl. induction 1 as [|a l Hl IH Hhd]; constructor; [done|].
  destruct Hhd; constructor. by apply Himpl.
Qed.

Section HistoryOrder.
Variable getTime : string → Z.

Local Instance notOlder_trans : Transitive (notOlder getTime).
Proof. unfold notOlder. intros a b c. lia. Qed.

Lemma insertReport_notOlder report prev :
  StronglySorted (notOlder getTime) (insertReport getTime report prev).
Proof.
  apply Sorted_StronglySorted; [apply _|].
  unfold insertReport.
  eapply Sorted_weaken; [|apply sort_Sorted].
  - intros a b. unfold inOrder, notOlder. lia.
  - intros a b. lia.
Qed.

Lemma notOlder_distinct_newer (l : list AttendanceReport) :
  StronglySorted (notOlder getTime) l →
  NoDup (map (λ r, getTime (date r)) l) →
  StronglySorted (newer getTime) l.
Proof.
  induction 1 as [|a l Hl IH Hall]; simpl; intros Hnd; [constructor|].
  apply NoDup_cons in Hnd as [Hnotin Hnd].
  constructor; [by apply IH|].
  apply Forall_forall. intros b Hb.
  rewrite Forall_forall in Hall. specialize (Hall b Hb).
  unfold notOlder, newer in *.
  assert (getTime (date a) ≠ getTime (date b)); [|lia].
  intros Heq. apply Hnotin. rewrite Heq.
  apply (list_elem_of_fmap_2 (λ r, getTime (date r))). done.
Qed.
End HistoryOrder.

(** C6 as stated fails: a report inserted with the time stamp of a report
    already in the history leaves two neighbours with equal time stamps, so
    the list is not strictly descending, whatever the date parser. *)
Lemma history_strict_order_counterexample :
  let first := mkReport "report-1" "class-1" "Room 1" "2024-01-01T00:00:00.000Z"
                        "Math" 0 "data:," [] "Calm." in
  let second := mkReport "report-2" "class-1" "Room 1" "2024-01-01T00:00:00.000Z"
                         "Physics" 1 "data:," [] "Calm." in
  ¬ ∃ getTime,
      Sorted (newer getTime)
             (insertReport getTime second (insertReport getTime first [])).
Proof.
  intros first second [getTime Hsorted].
  unfold insertReport in Hsorted. simpl in Hsorted.
  rewrite decide_True in Hsorted by lia.
  apply Sorted_inv in Hsorted as [_ Hhd].
  apply HdRel_inv in Hhd. unfold newer in Hhd. simpl in Hhd. lia.
Qed.

(** C6, amended.  After every successful capture the report history is
    sorted by descending time stamp, most recent first: each report is at
    least as recent as every report after it.  The order is strict when the
    time stamps in the history are pairwise distinct.  This holds whatever
    the order of the history before the insertion. *)
Theorem history_newest_first (localeCompare : string → string → Z)
    (getTime : string → Z) (image period : string)
    (result : GeminiAttendanceResponse) (reportId now : string) (σ : AppState) :
  students σ ≠ [] → period ≠ EmptyString →
  let σ' := handleTakeAttendance localeCompare getTime (Some image) period
              (inr result) reportId now σ in
  StronglySorted (notOlder getTime) (attendanceReports σ')
  ∧ (∃ report,
       date report = now
       ∧ attendanceReports σ' ≡ₚ report :: attendanceReports σ)
  ∧ (NoDup (map (λ r, getTime (date r)) (attendanceReports σ')) →
     StronglySorted (newer getTime) (attendanceReports σ')).
Proof.
  intros Hst Hp σ'.
  destruct (handleTakeAttendance_success localeCompare getTime image period
              result reportId now σ Hst Hp) as (selected & Hsel & Heq).
  subst σ'. rewrite Heq. clear Heq. simpl.
  split_and!.
  - apply insertReport_notOlder.
  - eexists. split; [|apply sort_Permutation]. done.
  - apply notOlder_distinct_newer, insertReport_notOlder.
Qed.

Lemma history_newest_first_witness :
  let later :=
    handleTakeAttendance Js.codeUnitCompare Sample.stamp
      (Some "data:image/png;base64,AA==") "Physics" (inr Sample.result)
      "report-2" "2024-01-01T10:00:00.000Z" Sample.captured in
  map id (attendanceReports later) = ["report-2"; "report-1"]
  ∧ StronglySorted (newer Sample.stamp) (attendanceReports later).
Proof.
  split; [reflexivity|].
  apply (history_newest_first Js.codeUnitCompare Sample.stamp
           "data:image/png;base64,AA==" "Physics" Sample.result "report-2"
           "2024-01-01T10:00:00.000Z" Sample.captured); [done|done|].
  vm_compute. repeat constructor.
  - intros [[=]|?%elem_of_nil]%elem_of_cons; done.
  - by intros ?%elem_of_nil.
Defined.

(** ** CSV export *)

Lemma string_app_assoc (a b c : string) : (a +:+ b) +:+ c = a +:+ (b +:+ c).
Proof.
  induction a as [|x a IH]; [done|].
  change (String x ((a +:+ b) +:+ c) = String x (a +:+ (b +:+ c))).
  by f_equal.
Qed.

Lemma csvRow_csvLine record : csvRow record = csvLine record.
Proof.
  unfold csvRow, csvLine. simpl. do 2 f_equal.
  by rewrite !string_app_assoc.
Qed.

Lemma codeUnitCompare_consistent (a b : string) :
  (0 < Js.codeUnitCompare a b)%Z → (Js.codeUnitCompare b a ≤ 0)%Z.
Proof.
  revert b. induction a as [|x a IH]; intros [|y b]; simpl; try lia.
  rewrite (Nat.compare_antisym (Ascii.nat_of_ascii x) (Ascii.nat_of_ascii y)).
  destruct (Nat.compare (Ascii.nat_of_ascii x) (Ascii.nat_of_ascii y));
    simpl; try lia.
  apply IH.
Qed.

(** C4 as stated fails: the export wraps every name in quotes, also one
    with no comma and no quote, so for the spec's example no collation
    yields the row [2,Bob,Present]. *)
Lemma csv_quotes_every_name_counterexample :
  ¬ ∃ localeCompare,
      snd (handleDownloadCSV localeCompare 0 [csvExample]) = Some csvClaimed.
Proof.
  intros [localeCompare H].
  unfold handleDownloadCSV in H. simpl in H.
  destruct (decide (localeCompare "2" "1" ≤ 0)%Z); simpl in H; discriminate H.
Qed.

(** C4, amended.  The export produces the header row followed by one row
    per student, ordered by roll id ascending, with columns roll id, name,
    status, where the name field is always wrapped in quotes, with embedded
    quotes doubled.  For the spec's example the data rows are
    [1,"Ann, Jr.",Absent] and then [2,"Bob",Present]. *)
Theorem csv_export (localeCompare : string → string → Z) (attendance : ref)
    (h : heap) :
  (∀ a b, (0 < localeCompare a b)%Z → (localeCompare b a ≤ 0)%Z) →
  readArray h attendance ≠ [] →
  (∃ rows,
     rows ≡ₚ readArray h attendance
     ∧ Sorted (λ a b, (localeCompare (rollNumber a) (rollNumber b) ≤ 0)%Z) rows
     ∧ snd (handleDownloadCSV localeCompare attendance h)
       = Some (Js.join Js.nl
                 ("Roll Number,Student Name,Status" :: map csvLine rows)))
  ∧ ((0 < localeCompare "2" "1")%Z →
     snd (handleDownloadCSV localeCompare 0 [csvExample])
     = Some (Js.join Js.nl
               ["Roll Number,Student Name,Status";
                "1," +:+ Js.dq +:+ "Ann, Jr." +:+ Js.dq +:+ ",Absent";
                "2," +:+ Js.dq +:+ "Bob" +:+ Js.dq +:+ ",Present"])).
Proof.
  intros Hcons Hne. split.
  - unfold handleDownloadCSV.
    rewrite bool_decide_eq_false_2 by (by destruct (readArray h attendance)).
    eexists. split_and!.
    + apply sort_Permutation.
    + apply (sort_Sorted (λ a b, localeCompare (rollNumber a) (rollNumber b))).
      intros a b. apply Hcons.
    + rewrite (map_ext csvRow csvLine csvRow_csvLine). reflexivity.
  - intros H21. unfold handleDownloadCSV. simpl.
    rewrite decide_False by lia. reflexivity.
Qed.

Lemma csv_export_witness :
  snd (handleDownloadCSV Js.codeUnitCompare 0 [csvExample])
  = Some (Js.join Js.nl
            ["Roll Number,Student Name,Status";
             "1," +:+ Js.dq +:+ "Ann, Jr." +:+ Js.dq +:+ ",Absent";
             "2," +:+ Js.dq +:+ "Bob" +:+ Js.dq +:+ ",Present"]).
Proof.
  apply (csv_export Js.codeUnitCompare 0 [csvExample]).
  - apply codeUnitCompare_consistent.
  - done.
  - reflexivity.
Defined.

Lemma snapshot_app_l (h ext : heap) report :
  attendance report < length h → snapshot (h ++ ext) report = snapshot h report.
Proof. intros Hl. unfold snapshot. by rewrite readArray_app_l. Qed.

Lemma snapshots_app_l (h ext : heap) (reports : list AttendanceReport) :
  Forall (λ r, attendance r < length h) reports →
  map (snapshot (h ++ ext)) reports = map (snapshot h) reports.
Proof.
  induction 1 as [|r rs Hr _ IH]; simpl; [done|].
  by rewrite IH, snapshot_app_l.
Qed.

Lemma refs_app_l (h ext : heap) (reports : list AttendanceReport) :
  Forall (λ r, attendance r < length h) reports →
  Forall (λ r, attendance r < length (h ++ ext)) reports.
Proof.
  intros Hrefs. eapply Forall_impl; [exact Hrefs|].
  intros r Hr. simpl in *. rewrite length_app. lia.
Qed.

(** What the status updater does, seen through snapshots: the store only
    grows, the new list is the old one with [toggledSnapshot] applied, and
    a report shown by [setActiveReport] is one of the new list. *)
Lemma statusUpdater_spec active sid rid (reports : list AttendanceReport) :
  ∀ h : heap,
    Forall (λ r, attendance r < length h) reports →
    ∃ (ext : heap) reports' shown,
      statusUpdater active sid rid h reports = (h ++ ext, reports', shown)
      ∧ Forall (λ r, attendance r < length (h ++ ext)) reports'
      ∧ map (snapshot (h ++ ext)) reports'
        = map (toggledSnapshot sid rid) (map (snapshot h) reports)
      ∧ (∀ r, shown = Some r → r ∈ reports').
Proof.
  induction reports as [|report rest IH]; intros h Hrefs; simpl.
  - exists [], [], None. rewrite app_nil_r. by split_and!.
  - apply Forall_cons in Hrefs as [Hr Hrest].
    destruct (decide (id report = rid)) as [Hid|Hid].
    + set (fresh := newAttendance sid (readArray h (attendance report))).
      destruct (IH (h ++ [fresh]) (refs_app_l _ _ _ Hrest))
        as (ext & rest' & later & Hrun & Hrefs' & Hsnap & Hshown).
      rewrite Hrun.
      exists ([fresh] ++ ext), (withAttendance report (length h) :: rest').
      rewrite (assoc_L (++)).
      eexists. split; [reflexivity|]. split_and!.
      * apply Forall_cons. split; [|done]. simpl.
        rewrite !length_app. simpl. lia.
      * simpl. f_equal.
        -- unfold toggledSnapshot, snapshot. simpl.
           rewrite decide_True by done. f_equal.
           rewrite readArray_app_l by (rewrite length_app; simpl; lia).
           apply readArray_fresh.
        -- rewrite Hsnap. by rewrite snapshots_app_l.
      * intros r Hr'. apply elem_of_cons.
        destruct later as [r'|].
        -- injection Hr' as <-. right. by apply Hshown.
        -- case_bool_decide; [|done]. injection Hr' as <-. by left.
    + destruct (IH h Hrest) as (ext & rest' & later & Hrun & Hrefs' & Hsnap & Hshown).
      rewrite Hrun. exists ext, (report :: rest'), later.
      split; [done|]. split_and!.
      * apply Forall_cons. split; [|done]. rewrite length_app. lia.
      * simpl. f_equal; [|done].
        rewrite snapshot_app_l by done.
        unfold toggledSnapshot, snapshot. simpl. by rewrite decide_False.
      * intros r Hr'. apply elem_of_cons. right. by apply Hshown.
Qed.

Lemma handleStatusChange_history sid rid σ :
  wellFormed σ →
  history (handleStatusChange sid rid σ)
  = map (toggledSnapshot sid rid) (history σ)
  ∧ wellFormed (handleStatusChange sid rid σ)
  ∧ classrooms (handleStatusChange sid rid σ) = classrooms σ
  ∧ selectedClassroomId (handleStatusChange sid rid σ) = selectedClassroomId σ.
Proof.
  intros [Hrefs Hactive]. unfold handleStatusChange.
  destruct (statusUpdater_spec (activeReport σ) sid rid (attendanceReports σ)
              (store σ) Hrefs)
    as (ext & reports' & shown & Hrun & Hrefs' & Hsnap & Hshown).
  rewrite Hrun. unfold history, wellFormed. simpl.
  split_and!; try done.
  intros r Hr. destruct shown as [r'|].
  - injection Hr as <-. rewrite Forall_forall in Hrefs'.
    by apply Hrefs', Hshown.
  - apply Hactive in Hr. rewrite length_app. lia.
Qed.

Lemma toggle_toggle record : toggle (toggle record) = record.
Proof. by destruct record as [? ? ? []]. Qed.

Lemma newAttendance_twice sid records :
  newAttendance sid (newAttendance sid records) = records.
Proof.
  unfold newAttendance. rewrite map_map.
  induction records as [|r rs IH]; simpl; [done|].
  rewrite IH. f_equal.
  destruct (decide (studentId r = sid)) as [Hr|Hr].
  - rewrite decide_True by done. apply toggle_toggle.
  - by rewrite decide_False.
Qed.

Lemma toggledSnapshot_twice sid rid s :
  toggledSnapshot sid rid (toggledSnapshot sid rid s) = s.
Proof.
  unfold toggledSnapshot. destruct (decide (id (fst s) = rid)) as [Hs|Hs]; simpl.
  - rewrite decide_True by done. simpl. rewrite newAttendance_twice.
    by destruct s.
  - by rewrite decide_False.
Qed.

(** Toggling twice restores the persisted history, in every well-formed
    state. *)
Lemma handleStatusChange_twice sid rid σ :
  wellFormed σ →
  history (handleStatusChange sid rid (handleStatusChange sid rid σ)) = history σ.
Proof.
  intros Hwf.
  destruct (handleStatusChange_history sid rid σ Hwf) as (H1 & Hwf1 & _).
  destruct (handleStatusChange_history sid rid _ Hwf1) as (H2 & _).
  rewrite H2, H1, map_map. clear.
  induction (history σ) as [|s l IH]; simpl; [done|].
  by rewrite toggledSnapshot_twice, IH.
Qed.

(** Mapping over a list whose keys are pairwise distinct, changing only
    the element with a given key, is an update at that element's index. *)
Lemma map_other_keys {A B} `{EqDecision B} (f : A → B) (g : A → A)
    (l : list A) (k : B) :
  (k ∉ map f l) → map (λ y, if decide (f y = k) then g y else y) l = l.
Proof.
  induction l as [|a l IH]; simpl; [done|].
  intros Hk. rewrite not_elem_of_cons in Hk. destruct Hk as [Hka Hkl].
  rewrite decide_False by done. by rewrite IH.
Qed.

Lemma map_at_unique_key {A B} `{EqDecision B} (f : A → B) (g : A → A)
    (l : list A) (i : nat) (x : A) :
  NoDup (map f l) → l !! i = Some x →
  map (λ y, if decide (f y = f x) then g y else y) l = <[i := g x]> l.
Proof.
  revert i. induction l as [|a l IH]; intros i Hnd Hi; [done|].
  simpl in Hnd. apply NoDup_cons in Hnd as [Hnotin Hnd].
  destruct i as [|i]; simpl in *.
  - injection Hi as ->. rewrite decide_True by done. f_equal.
    by apply map_other_keys.
  - rewrite (IH i) by done. rewrite decide_False; [done|].
    intros Heq. apply Hnotin. rewrite Heq.
    apply (list_elem_of_fmap_2 f). by eapply list_elem_of_lookup_2.
Qed.

(** C3.  In a state whose report ids are pairwise distinct, for a report
    of the history and a record of it whose student id occurs once in that
    report: toggling twice restores the whole history, hence the record's
    status; one toggle replaces exactly that record of exactly that report
    by the same record with the other status, and leaves every other
    record, every other report and the roster as they were. *)
Theorem toggleStatus_involution_frame (sid rid : string) (σ : AppState)
    (i j : nat) (report : AttendanceReport) (record : AttendanceRecord) :
  wellFormed σ →
  NoDup (map id (attendanceReports σ)) →
  attendanceReports σ !! i = Some report → id report = rid →
  NoDup (map studentId (attendanceOf σ report)) →
  attendanceOf σ report !! j = Some record → studentId record = sid →
  let σ1 := handleStatusChange sid rid σ in
  let σ2 := handleStatusChange sid rid σ1 in
  history σ2 = history σ
  ∧ history σ1
    = <[i := (withAttendance report 0,
              <[j := toggle record]> (attendanceOf σ report))]> (history σ)
  ∧ status (toggle record) ≠ status record
  ∧ status (toggle (toggle record)) = status record
  ∧ studentId (toggle record) = studentId record
  ∧ name (toggle record) = name record
  ∧ rollNumber (toggle record) = rollNumber record
  ∧ classrooms σ1 = classrooms σ.
Proof.
  intros Hwf Hids Hi Hrid Hsids Hj Hsid σ1 σ2.
  destruct (handleStatusChange_history sid rid σ Hwf) as (H1 & _ & Hcl & _).
  split_and!; try done.
  - by apply handleStatusChange_twice.
  - subst σ1. rewrite H1. subst rid sid.
    assert (Hsnap : history σ !! i = Some (snapshot (store σ) report)).
    { unfold history. by rewrite list_lookup_fmap, Hi. }
    etrans.
    { apply (map_at_unique_key (id ∘ fst)
               (λ s, (fst s, newAttendance (studentId record) (snd s)))
               (history σ) i (snapshot (store σ) report)); [|done].
      unfold history. rewrite map_map. simpl. done. }
    unfold snapshot at 1. simpl. unfold newAttendance.
    rewrite (map_at_unique_key studentId toggle _ j record) by done.
    done.
  - by destruct record as [? ? ? []].
  - by rewrite toggle_toggle.
Qed.

Lemma toggleStatus_involution_frame_witness :
  history (handleStatusChange "student-2" "report-1"
             (handleStatusChange "student-2" "report-1" Sample.captured))
  = history Sample.captured
  ∧ map (λ s, map (λ r, (name r, status r)) (snd s))
        (history (handleStatusChange "student-2" "report-1" Sample.captured))
    = [[("Ann", Present); ("Bob", Present)]].
Proof.
  assert (Hreport : ∃ report,
             attendanceReports Sample.captured !! 0 = Some report)
    by (eexists; reflexivity).
  destruct Hreport as [report Hreport].
  destruct (toggleStatus_involution_frame "student-2" "report-1" Sample.captured
              0 1 report
              (mkRecord "student-2" "Bob" "1" Absent)) as (H2 & H1 & _).
  - split.
    + repeat constructor.
    + intros r [= <-]. vm_compute. lia.
  - vm_compute. repeat constructor. by intros ?%elem_of_nil.
  - exact Hreport.
  - vm_compute in Hreport. by injection Hreport as <-.
  - vm_compute in Hreport. injection Hreport as <-. vm_compute.
    repeat constructor.
    + intros [[=]|?%elem_of_nil]%elem_of_cons; done.
    + by intros ?%elem_of_nil.
  - vm_compute in Hreport. by injection Hreport as <-.
  - done.
  - split; [exact H2|]. rewrite H1.
    vm_compute in Hreport. injection Hreport as <-. reflexivity.
Defined.

(** ** Identity confirmation with a matching student *)

(** What the handler leaves in the persisted history: every report with
    the active report's id is replaced by the closure's copy of the active
    report with the face relabelled.  That copy still points to the
    attendance array from before the status updater ran, so the toggle the
    updater made is overwritten. *)
Lemma handleSuggestionConfirm_history (eager : bool) (suggestedName faceId : string)
    (σ : AppState) (student : Student) (active : AttendanceReport) :
  wellFormed σ →
  find (λ s, bool_decide (student_name s = suggestedName)) (students σ)
    = Some student →
  activeReport σ = Some active →
  history (handleSuggestionConfirm eager suggestedName faceId σ)
  = map (λ s, if decide (id (fst s) = id active)
              then (withAttendance
                      (withDetectedFaces active
                         (relabel faceId (student_name student)
                                  (detectedFaces active))) 0,
                    attendanceOf σ active)
              else s)
        (history σ).
Proof.
  intros [Hrefs Hactive] Hfind Hact. unfold handleSuggestionConfirm.
  rewrite Hfind, Hact.
  destruct (statusUpdater_spec (Some active) (student_id student) (id active)
              (attendanceReports σ) (store σ) Hrefs)
    as (ext & reports' & shown & Hrun & Hrefs' & Hsnap & Hshown).
  rewrite Hrun. unfold history. simpl.
  set (updated := withDetectedFaces active _).
  assert (Hupd : snapshot (store σ ++ ext) updated
                 = (withAttendance updated 0, attendanceOf σ active)).
  { unfold snapshot, attendanceOf. f_equal. subst updated. simpl.
    apply readArray_app_l. by apply Hactive. }
  rewrite <- Hupd.
  transitivity
    (map (λ s, if decide (id (fst s) = id active)
               then snapshot (store σ ++ ext) updated else s)
         (map (snapshot (store σ ++ ext)) reports')).
  - rewrite !map_map. apply map_ext. intros r. simpl.
    by destruct (decide (id r = id active)).
  - rewrite Hsnap, !map_map. apply map_ext. intros r.
    unfold toggledSnapshot. simpl.
    destruct (decide (id r = id active)) as [Hr|Hr]; simpl.
    + by rewrite decide_True.
    + by rewrite decide_False.
Qed.

(** C1 fails on the code.  In the state after the sample capture, where
    Bob is Absent and one face is Unknown, confirming Bob for that face
    relabels the face, but the persisted report still has Bob Absent:
    the relabel is applied without the attendance toggle.  This holds for
    both orders in which React may run the queued updates. *)
Theorem resolveUnknownFace_loses_toggle (eager : bool) :
  let σ' := handleSuggestionConfirm eager "Bob" "face-unknown-0.2"
              Sample.captured in
  map (λ s, (map face_name (detectedFaces (fst s)),
             map (λ r, (name r, status r)) (snd s)))
      (history Sample.captured)
  = [(["Ann"; "Unknown"], [("Ann", Present); ("Bob", Absent)])]
  ∧ map (λ s, (map face_name (detectedFaces (fst s)),
               map (λ r, (name r, status r)) (snd s)))
        (history σ')
    = [(["Ann"; "Bob"], [("Ann", Present); ("Bob", Absent)])].
Proof. by destruct eager. Qed.

(** ** CSV export and the report it is taken from *)

(** The export sorts the array of the active report in place: afterwards
    every report that holds this array shows it in roll-number order. *)
Lemma clickDownloadCSV_attendance (localeCompare : string → string → Z)
    (σ : AppState) (active report : AttendanceReport) :
  activeReport σ = Some active →
  attendanceOf σ active ≠ [] →
  attendanceOf (fst (clickDownloadCSV localeCompare σ)) report
  = if decide (attendance report = attendance active)
    then Js.sort (λ a b, localeCompare (rollNumber a) (rollNumber b))
                 (attendanceOf σ active)
    else attendanceOf σ report.
Proof.
  intros Hact Hne. unfold clickDownloadCSV, handleDownloadCSV. rewrite Hact.
  unfold attendanceOf in *.
  rewrite bool_decide_eq_false_2
    by (by destruct (readArray (store σ) (attendance active))).
  simpl. unfold readArray in *.
  destruct (decide (attendance report = attendance active)) as [->|Hother].
  - rewrite list_lookup_insert_eq; [done|].
    destruct (store σ !! attendance active) eqn:Hl; [|done].
    by eapply lookup_lt_Some.
  - by rewrite list_lookup_insert_ne.
Qed.

(** C5 fails on the code.  The sample capture stores the attendance in
    name order, Ann (roll 2) before Bob (roll 1).  Downloading the CSV of
    that report reorders the report's own attendance list: the persisted
    history then lists Bob before Ann. *)
Theorem csv_export_reorders_report :
  let σ' := fst (clickDownloadCSV Js.codeUnitCompare Sample.captured) in
  map (λ s, map (λ r, (name r, rollNumber r)) (snd s)) (history Sample.captured)
  = [[("Ann", "2"); ("Bob", "1")]]
  ∧ map (λ s, map (λ r, (name r, rollNumber r)) (snd s)) (history σ')
    = [[("Bob", "1"); ("Ann", "2")]]
  ∧ attendanceReports σ' = attendanceReports Sample.captured.
Proof. done. Qed.

(** ** References stay valid

    A state the code can reach has no dangling reference: the state of a
    fresh application is well formed and every handler keeps it so. *)

Lemma wellFormed_empty : wellFormed (mkState [] [] [] None None None).
Proof. split; [constructor|]. by intros r [=]. Qed.

Lemma wellFormed_handleTakeAttendance localeCompare getTime imageFile period
    outcome reportId now σ :
  wellFormed σ →
  wellFormed (handleTakeAttendance localeCompare getTime imageFile period
                outcome reportId now σ).
Proof.
  intros [Hrefs Hactive]. unfold handleTakeAttendance.
  destruct imageFile as [image|], (selectedClassroom σ) as [selected|];
    try (split; simpl; done).
  destruct (_ || _); [split; simpl; done|].
  destruct outcome as [msg|result]; [split; simpl; done|].
  split; simpl.
  - unfold insertReport. rewrite sort_Permutation.
    apply Forall_cons. split.
    + simpl. rewrite length_app. simpl. lia.
    + by apply refs_app_l.
  - intros r [= <-]. simpl. rewrite length_app. simpl. lia.
Qed.

Lemma wellFormed_handleSuggestionConfirm eager suggestedName faceId σ :
  wellFormed σ → wellFormed (handleSuggestionConfirm eager suggestedName faceId σ).
Proof.
  intros Hwf. pose proof Hwf as [Hrefs Hactive]. unfold handleSuggestionConfirm.
  destruct (find _ (students σ)) as [student|]; [|done].
  destruct (activeReport σ) as [active|] eqn:Hact; [|done].
  destruct (statusUpdater_spec (Some active) (student_id student) (id active)
              (attendanceReports σ) (store σ) Hrefs)
    as (ext & reports' & shown & Hrun & Hrefs' & _ & Hshown).
  rewrite Hrun.
  assert (Hupd : attendance active < length (store σ ++ ext)).
  { rewrite length_app. specialize (Hactive active eq_refl). lia. }
  split; simpl.
  - apply Forall_fmap. eapply Forall_impl; [exact Hrefs'|].
    intros r Hr. simpl. by destruct (decide (id r = id active)).
  - intros r Hr.
    assert (r = withDetectedFaces active
                  (relabel faceId (student_name student) (detectedFaces active))
            ∨ r ∈ reports') as [->|Hin].
    { destruct eager; [left; congruence|].
      destruct shown as [r'|]; [right|left; congruence].
      injection Hr as <-. by apply Hshown. }
    + done.
    + rewrite Forall_forall in Hrefs'. by apply Hrefs'.
Qed.

Lemma wellFormed_handleDeleteClassroom confirmed cid σ :
  wellFormed σ → wellFormed (handleDeleteClassroom confirmed cid σ).
Proof.
  intros Hwf. pose proof Hwf as [Hrefs Hactive]. unfold handleDeleteClassroom.
  destruct confirmed; [|done]. split; simpl.
  - rewrite Forall_forall in *. intros r Hr.
    apply list_elem_of_filter in Hr as [_ Hr]. by apply Hrefs.
  - intros r Hr. apply Hactive. by destruct (bool_decide _).
Qed.

Lemma wellFormed_clickDownloadCSV localeCompare σ :
  wellFormed σ → wellFormed (fst (clickDownloadCSV localeCompare σ)).
Proof.
  intros Hwf. pose proof Hwf as [Hrefs Hactive].
  unfold clickDownloadCSV, handleDownloadCSV.
  destruct (activeReport σ) as [active|] eqn:Hact; [|done].
  destruct (bool_decide _); simpl.
  - split; simpl; [done|]. intros r [= <-]. by apply Hactive.
  - split; simpl.
    + by rewrite length_insert.
    + rewrite length_insert. intros r [= <-]. by apply Hactive.
Qed.

(** * The rest of the application: properties *)

(** ** Roster store *)

Lemma selection_Some σ sel :
  selection σ = Some sel ↔ selectedClassroomId σ = Some sel ∧ sel ≠ EmptyString.
Proof.
  unfold selection. destruct (selectedClassroomId σ) as [s|].
  - destruct (bool_decide (s = EmptyString)) eqn:Hs.
    + apply bool_decide_eq_true in Hs. split; [done|]. intros [[= ->] ?]. done.
    + apply bool_decide_eq_false in Hs. split.
      * by intros [= ->].
      * by intros [[= ->] _].
  - split; [done|]. by intros [? _].
Qed.

(** [find] by classroom id commutes with a map that keeps the ids. *)
Lemma find_classroom_map (f : Classroom → Classroom) (o : option string)
    (cs : list Classroom) :
  (∀ c, classroom_id (f c) = classroom_id c) →
  find (λ c, bool_decide (Some (classroom_id c) = o)) (map f cs)
  = f <$> find (λ c, bool_decide (Some (classroom_id c) = o)) cs.
Proof.
  intros Hid. induction cs as [|c cs IH]; simpl; [done|].
  rewrite Hid. destruct (bool_decide _); [done|]. apply IH.
Qed.

(** The roster of the selected classroom after its roster was rebuilt by
    [g] in every classroom with the selected id. *)
Lemma students_withClassrooms σ sel (g : list Student → list Student) :
  selectedClassroomId σ = Some sel →
  students (withClassrooms σ
              (map (λ c, if decide (classroom_id c = sel)
                         then withStudents c (g (classroom_students c)) else c)
                   (classrooms σ)))
  = match selectedClassroom σ with
    | Some c => g (classroom_students c)
    | None => []
    end.
Proof.
  intros Hsel. unfold students, selectedClassroom. simpl. rewrite Hsel.
  rewrite find_classroom_map by (intros c; by destruct (decide _)).
  destruct (find _ (classrooms σ)) as [c|] eqn:Hfind; simpl; [|done].
  apply find_Some_first in Hfind as (_ & _ & _ & Hc & _).
  apply bool_decide_eq_true in Hc. injection Hc as Hc.
  by rewrite decide_True.
Qed.

(** X1.  Adding a student with a classroom selected gives that classroom's
    roster exactly one more member, the new student, and leaves the
    classroom ids, every classroom with another id, the selection and the
    reports as they were; with no classroom selected nothing changes. *)
Theorem add_student_roster (localeCompare : string → string → Z)
    (sid name roll password imageBase64 imageType imageUrl : string)
    (σ : AppState) :
  let newStudent := mkStudent sid name roll (Some password)
                              imageBase64 imageType imageUrl in
  let σ' := handleAddStudent localeCompare sid name roll password
              imageBase64 imageType imageUrl σ in
  (selection σ = None → σ' = σ)
  ∧ (∀ c, selection σ = Some (classroom_id c) → selectedClassroom σ = Some c →
       students σ' ≡ₚ newStudent :: students σ)
  ∧ map classroom_id (classrooms σ') = map classroom_id (classrooms σ)
  ∧ (∀ i c, classrooms σ !! i = Some c →
       Some (classroom_id c) ≠ selectedClassroomId σ →
       classrooms σ' !! i = Some c)
  ∧ selectedClassroomId σ' = selectedClassroomId σ
  ∧ attendanceReports σ' = attendanceReports σ
  ∧ store σ' = store σ.
Proof.
  intros newStudent σ'. subst σ' newStudent. unfold handleAddStudent.
  destruct (selection σ) as [sel|] eqn:Hsel.
  - apply selection_Some in Hsel as [Hsel Hne]. split_and!; try done.
    + intros c [= ->] Hc.
      rewrite (students_withClassrooms σ (classroom_id c)
                 (λ l, Js.sort (byName localeCompare) (l ++ [_])))
        by done.
      unfold students. rewrite Hc, sort_Permutation.
      by rewrite Permutation_app_comm.
    + simpl. rewrite map_map. apply map_ext. intros c. by destruct (decide _).
    + intros i c Hi Hother. simpl. rewrite list_lookup_fmap, Hi. simpl.
      rewrite decide_False; [done|]. intros Heq. apply Hother. by rewrite Heq.
  - split_and!; try done.
Qed.

Lemma add_student_roster_witness :
  map student_name
      (students (handleAddStudent Js.codeUnitCompare "student-3" "Abe" "3" "pw"
                   "QQ==" "image/png" "blob:abe" Sample.initial))
  = ["Abe"; "Ann"; "Bob"]
  ∧ students (handleAddStudent Js.codeUnitCompare "student-3" "Abe" "3" "pw"
                "QQ==" "image/png" "blob:abe" Sample.initial)
    ≡ₚ mkStudent "student-3" "Abe" "3" (Some "pw") "QQ==" "image/png" "blob:abe"
       :: students Sample.initial.
Proof.
  split; [reflexivity|].
  destruct (add_student_roster Js.codeUnitCompare "student-3" "Abe" "3" "pw"
              "QQ==" "image/png" "blob:abe" Sample.initial) as (_ & Hadd & _).
  apply (Hadd Sample.room); reflexivity.
Defined.

(** ** Rosters stay in name order *)

Lemma sort_sorted_id {A} (compareFn : A → A → Z) (l : list A) :
  Sorted (inOrder compareFn) l → Js.sort compareFn l = l.
Proof.
  induction 1 as [|x l Hl IH Hhd]; simpl; [done|].
  rewrite IH. destruct Hhd as [|y l Hxy]; simpl; [done|].
  by rewrite decide_True.
Qed.

Lemma StronglySorted_filter {A} (R : A → A → Prop) (P : A → Prop)
    `{∀ x, Decision (P x)} (l : list A) :
  StronglySorted R l → StronglySorted R (filter P l).
Proof.
  induction 1 as [|x l Hl IH Hall]; [constructor|].
  rewrite filter_cons. destruct (decide (P x)); [|done].
  constructor; [done|].
  rewrite Forall_forall in *. intros y Hy.
  apply list_elem_of_filter in Hy as [_ Hy]. by apply Hall.
Qed.

Section NameOrder.
Variable localeCompare : string → string → Z.
Hypothesis Hconsistent : consistent localeCompare.
Hypothesis Htransitive : transitiveOrder localeCompare.

Local Instance nameOrder_trans : Transitive (nameOrder localeCompare).
Proof. intros a b c. unfold nameOrder. apply Htransitive. Qed.

Lemma sort_byName (roster : list Student) :
  StronglySorted (nameOrder localeCompare) (Js.sort (byName localeCompare) roster).
Proof.
  apply Sorted_StronglySorted; [apply _|].
  apply (sort_Sorted (byName localeCompare)).
  intros a b. unfold byName. apply Hconsistent.
Qed.

Lemma rebuilt_rosters (sel : string) (g : list Student → list Student)
    (cs : list Classroom) :
  (∀ l, StronglySorted (nameOrder localeCompare) l →
        StronglySorted (nameOrder localeCompare) (g l)) →
  Forall (λ c, StronglySorted (nameOrder localeCompare) (classroom_students c)) cs →
  Forall (λ c, StronglySorted (nameOrder localeCompare) (classroom_students c))
         (map (λ c, if decide (classroom_id c = sel)
                    then withStudents c (g (classroom_students c)) else c)
              cs).
Proof.
  intros Hg Hcs. apply Forall_fmap. eapply Forall_impl; [exact Hcs|].
  intros c Hc. simpl. destruct (decide _); [|done]. simpl. by apply Hg.
Qed.

Lemma roster_order_kept (σ : AppState) :
  rostersInNameOrder localeCompare σ →
  (∀ classId name, rostersInNameOrder localeCompare (handleAddClassroom classId name σ))
  ∧ (∀ cid newName,
       rostersInNameOrder localeCompare (handleUpdateClassroom cid newName σ))
  ∧ (∀ cid, rostersInNameOrder localeCompare (handleSelectClassroom cid σ))
  ∧ (∀ sid name roll password imageBase64 imageType imageUrl,
       rostersInNameOrder localeCompare
         (handleAddStudent localeCompare sid name roll password
            imageBase64 imageType imageUrl σ))
  ∧ (∀ sid updatedData,
       rostersInNameOrder localeCompare
         (handleUpdateStudent localeCompare sid updatedData σ))
  ∧ (∀ sid, rostersInNameOrder localeCompare (removeStudent sid σ))
  ∧ (∀ confirmed cid,
       rostersInNameOrder localeCompare (handleDeleteClassroom confirmed cid σ))
  ∧ rostersInNameOrder localeCompare (reload σ).
Proof.
  unfold rostersInNameOrder. intros Hσ. split_and!.
  - intros classId name. simpl. apply Forall_app. split; [done|].
    repeat constructor.
  - intros cid newName. unfold handleUpdateClassroom.
    destruct (bool_decide _); simpl; [done|].
    apply Forall_fmap. eapply Forall_impl; [exact Hσ|].
    intros c Hc. simpl. by destruct (decide _).
  - done.
  - intros sid name roll password imageBase64 imageType imageUrl.
    unfold handleAddStudent. destruct (selection σ) as [sel|]; [|done]. simpl.
    apply (rebuilt_rosters sel (λ l, Js.sort (byName localeCompare) (l ++ [_])));
      [|done].
    intros l _. apply sort_byName.
  - intros sid updatedData.
    unfold handleUpdateStudent. destruct (selection σ) as [sel|]; [|done]. simpl.
    apply (rebuilt_rosters sel
             (λ l, Js.sort (byName localeCompare) (map _ l))); [|done].
    intros l _. apply sort_byName.
  - intros sid. unfold removeStudent.
    destruct (selection σ) as [sel|]; [|done]. simpl.
    apply (rebuilt_rosters sel (filter (λ s, student_id s ≠ sid))); [|done].
    intros l Hl. by apply StronglySorted_filter.
  - intros [] cid; [|done]. simpl.
    rewrite Forall_forall in *. intros c Hc.
    apply list_elem_of_filter in Hc as [_ Hc]. by apply Hσ.
  - unfold reload. destruct (loadedReports [] (history σ)) as [h reports]. simpl.
    unfold loadedClassrooms, dataToSave. rewrite map_map.
    apply Forall_fmap. eapply Forall_impl; [exact Hσ|].
    intros c Hc. simpl. rewrite map_map. simpl.
    clear -Hc. induction Hc as [|s l Hl IH Hall]; simpl; [constructor|].
    constructor; [done|].
    rewrite Forall_forall in *. intros s' Hs'.
    apply list_elem_of_fmap in Hs' as (s0 & -> & Hs0).
    unfold nameOrder. simpl. by apply Hall.
Qed.
End NameOrder.

(** X2.  With a collation that orders names consistently and
    transitively, every handler that touches the classrooms keeps every
    roster in name order, and so does saving and loading again; the
    attendance list of a capture taken from such a roster is then the
    roster's records in roster order. *)
Theorem rosters_stay_in_name_order (localeCompare : string → string → Z)
    (σ : AppState) :
  consistent localeCompare → transitiveOrder localeCompare →
  rostersInNameOrder localeCompare σ →
  (∀ classId name, rostersInNameOrder localeCompare (handleAddClassroom classId name σ))
  ∧ (∀ cid newName,
       rostersInNameOrder localeCompare (handleUpdateClassroom cid newName σ))
  ∧ (∀ sid name roll password imageBase64 imageType imageUrl,
       rostersInNameOrder localeCompare
         (handleAddStudent localeCompare sid name roll password
            imageBase64 imageType imageUrl σ))
  ∧ (∀ sid updatedData,
       rostersInNameOrder localeCompare
         (handleUpdateStudent localeCompare sid updatedData σ))
  ∧ (∀ sid, rostersInNameOrder localeCompare (removeStudent sid σ))
  ∧ (∀ confirmed cid,
       rostersInNameOrder localeCompare (handleDeleteClassroom confirmed cid σ))
  ∧ rostersInNameOrder localeCompare (reload σ)
  ∧ (∀ result,
       finalAttendance localeCompare (students σ) result
       = map (recordFor result) (students σ)).
Proof.
  intros Hc Ht Hσ.
  destruct (roster_order_kept localeCompare Hc Ht σ Hσ)
    as (H1 & H2 & _ & H4 & H5 & H6 & H7 & H8).
  split_and!; try done.
  intros result.
  assert (Hroster : StronglySorted (nameOrder localeCompare) (students σ)).
  { unfold students, selectedClassroom.
    destruct (find _ (classrooms σ)) as [c|] eqn:Hfind; [|constructor].
    apply find_Some_first in Hfind as (l1 & l2 & Heq & _).
    unfold rostersInNameOrder in Hσ. rewrite Forall_forall in Hσ. apply Hσ.
    rewrite Heq. apply elem_of_app. right. apply elem_of_cons. by left. }
  unfold finalAttendance.
  assert (Hmap : ∀ roster,
             map (λ student,
                    mkRecord (student_id student) (student_name student)
                      (student_rollNumber student)
                      (if bool_decide (student_name student ∈ presentNames result)
                       then Present else Absent)) roster
             = map (recordFor result) roster).
  { intros roster. apply map_ext. intros s. unfold recordFor. f_equal.
    unfold presentNames. destruct (bool_decide _) eqn:Hb.
    - apply bool_decide_eq_true in Hb. apply elem_of_list_to_set in Hb.
      by rewrite decide_True.
    - apply bool_decide_eq_false in Hb. rewrite elem_of_list_to_set in Hb.
      by rewrite decide_False. }
  rewrite Hmap. apply sort_sorted_id.
  apply StronglySorted_Sorted in Hroster.
  clear -Hroster. induction Hroster as [|s l Hl IH Hhd]; simpl; [constructor|].
  constructor; [done|]. destruct Hhd; simpl; constructor. done.
Qed.

Lemma codeUnitCompare_transitive (a b c : string) :
  (Js.codeUnitCompare a b ≤ 0)%Z → (Js.codeUnitCompare b c ≤ 0)%Z →
  (Js.codeUnitCompare a c ≤ 0)%Z.
Proof.
  revert b c. induction a as [|x a IH]; intros [|y b] [|z c]; simpl; try lia.
  destruct (Nat.compare_spec (Ascii.nat_of_ascii x) (Ascii.nat_of_ascii y)) as [Hxy|Hxy|Hxy];
    destruct (Nat.compare_spec (Ascii.nat_of_ascii y) (Ascii.nat_of_ascii z)) as [Hyz|Hyz|Hyz];
    destruct (Nat.compare_spec (Ascii.nat_of_ascii x) (Ascii.nat_of_ascii z)) as [Hxz|Hxz|Hxz];
    try lia.
  apply IH.
Qed.

Lemma rosters_stay_in_name_order_witness :
  rostersInNameOrder Js.codeUnitCompare (reload Sample.captured)
  ∧ finalAttendance Js.codeUnitCompare (students Sample.initial) Sample.result
    = map (recordFor Sample.result) (students Sample.initial).
Proof.
  destruct (rosters_stay_in_name_order Js.codeUnitCompare Sample.captured)
    as (_ & _ & _ & _ & _ & _ & Hreload & _).
  - intros a b. apply codeUnitCompare_consistent.
  - intros a b c. apply codeUnitCompare_transitive.
  - repeat constructor; vm_compute; congruence.
  - split; [exact Hreload|]. reflexivity.
Defined.

(** ** Editing a student and logging in *)

Lemma studentLogin_is_Some classrooms libraryId password c s :
  c ∈ classrooms → s ∈ classroom_students c →
  credentialsOf libraryId password s →
  is_Some (studentLogin classrooms libraryId password).
Proof.
  intros Hc Hs Hcred.
  destruct (studentLogin classrooms libraryId password) eqn:Hlogin; [by eexists|].
  exfalso. by eapply studentLogin_None.
Qed.



(** ** Removing a student *)

(** X4.  Removing a student does not touch the reports: the persisted
    history is the same, so earlier reports keep the student's records.
    With a classroom selected, its roster loses exactly the students with
    that id, and a capture taken afterwards has no record for the id, while
    every earlier report still shows the attendance it had. *)
Theorem remove_student_then_capture (localeCompare : string → string → Z)
    (getTime : string → Z) (sid image period reportId now : string)
    (result : GeminiAttendanceResponse) (σ : AppState) :
  wellFormed σ →
  let σ1 := removeStudent sid σ in
  let σ2 := handleTakeAttendance localeCompare getTime (Some image) period
              (inr result) reportId now σ1 in
  history σ1 = history σ
  ∧ (selection σ ≠ None →
     students σ1 = filter (λ s, student_id s ≠ sid) (students σ))
  ∧ (selection σ ≠ None → students σ1 ≠ [] → period ≠ EmptyString →
     (∃ report, activeReport σ2 = Some report
                ∧ report ∈ attendanceReports σ2
                ∧ Forall (λ r, studentId r ≠ sid) (attendanceOf σ2 report))
     ∧ ∀ report, report ∈ attendanceReports σ →
         report ∈ attendanceReports σ2
         ∧ attendanceOf σ2 report = attendanceOf σ report).
Proof.
  intros [Hrefs Hactive] σ1 σ2.
  assert (Hsame : attendanceReports σ1 = attendanceReports σ ∧ store σ1 = store σ).
  { subst σ1. unfold removeStudent. by destruct (selection σ). }
  destruct Hsame as [Hreports Hstore].
  assert (Hroster : selection σ ≠ None →
            students σ1 = filter (λ s, student_id s ≠ sid) (students σ)).
  { intros Hsel. subst σ1. unfold removeStudent.
    destruct (selection σ) as [sel|] eqn:Hs; [|done].
    apply selection_Some in Hs as [Hs _].
    rewrite (students_withClassrooms σ sel (filter (λ s, student_id s ≠ sid)))
      by done.
    unfold students. by destruct (selectedClassroom σ). }
  split_and!.
  - unfold history. by rewrite Hreports, Hstore.
  - done.
  - intros Hsel' Hst Hp.
    destruct (handleTakeAttendance_success localeCompare getTime image period
                result reportId now σ1 Hst Hp) as (selected & Hsel & Heq).
    subst σ2. rewrite Heq. clear Heq. simpl. split.
    + eexists. split; [reflexivity|]. split; [apply insertReport_elem|].
      unfold attendanceOf. simpl. rewrite readArray_fresh.
      rewrite Forall_forall. intros r Hr.
      rewrite finalAttendance_Permutation in Hr.
      apply list_elem_of_fmap in Hr as (s & -> & Hs). simpl.
      rewrite (Hroster Hsel') in Hs.
      apply list_elem_of_filter in Hs as [Hs _]. done.
    + intros report Hin. rewrite Hreports, Hstore. split.
      * unfold insertReport. rewrite sort_Permutation.
        apply elem_of_cons. by right.
      * unfold attendanceOf. simpl. apply readArray_app_l.
        rewrite Forall_forall in Hrefs. by apply Hrefs.
Qed.

Lemma remove_student_then_capture_witness :
  let σ2 := handleTakeAttendance Js.codeUnitCompare Sample.stamp
              (Some "data:image/png;base64,AA==") "Physics" (inr Sample.result)
              "report-2" "2024-01-01T10:00:00.000Z"
              (removeStudent "student-2" Sample.captured) in
  history (removeStudent "student-2" Sample.captured) = history Sample.captured
  ∧ map (λ s, map name (snd s)) (history σ2) = [["Ann"]; ["Ann"; "Bob"]].
Proof.
  destruct (remove_student_then_capture Js.codeUnitCompare Sample.stamp
              "student-2" "data:image/png;base64,AA==" "Physics" "report-2"
              "2024-01-01T10:00:00.000Z" Sample.result Sample.captured)
    as (Hhistory & _).
  - split.
    + repeat constructor.
    + intros r [= <-]. vm_compute. lia.
  - split; [exact Hhistory|]. reflexivity.
Defined.

(** ** When a capture adds a report *)

Lemma selectedClassroom_id σ selected :
  selectedClassroom σ = Some selected →
  Some (classroom_id selected) = selectedClassroomId σ.
Proof.
  unfold selectedClassroom. intros Hfind.
  apply find_Some_first in Hfind as (_ & _ & _ & Hc & _).
  by apply bool_decide_eq_true in Hc.
Qed.



(** ** Deleting a classroom and its students' access *)

Lemma find_filter_other_id cid (cs : list Classroom) :
  find (λ c, bool_decide (classroom_id c = cid))
       (filter (λ c, classroom_id c ≠ cid) cs) = None.
Proof.
  apply find_None_all. intros c Hc.
  apply list_elem_of_filter in Hc as [Hc _]. by apply bool_decide_eq_false.
Qed.

(** X6.  After a classroom is deleted, a student session of that classroom
    finds no profile and no attendance history, no login yields a session
    for that classroom, and when the classroom was the selected one the
    roster in use is empty and no report is active. *)
Theorem delete_classroom_access (getTime : string → Z) (cid : string)
    (σ : AppState) :
  let σ' := handleDeleteClassroom true cid σ in
  (∀ sid, dashboardStudent sid cid (classrooms σ') = None)
  ∧ (∀ sid, studentRecords getTime (store σ') (attendanceReports σ') sid cid = [])
  ∧ (∀ libraryId password user,
       session (handleSubmit (classrooms σ') (Some StudentRole) libraryId password)
       = Some user →
       user_classroomId user ≠ Some cid)
  ∧ (selectedClassroomId σ = Some cid →
     students σ' = [] ∧ activeReport σ' = None ∧ classroomReports σ' = []).
Proof.
  intros σ'. subst σ'. simpl. split_and!.
  - intros sid. unfold dashboardStudent. by rewrite find_filter_other_id.
  - intros sid. unfold studentRecords.
    assert (filter (λ r, classroomId r = cid)
              (filter (λ r, classroomId r ≠ cid) (attendanceReports σ)) = [])
      as ->; [|done].
    induction (attendanceReports σ) as [|r rs IH]; [done|].
    rewrite filter_cons. destruct (decide (classroomId r ≠ cid)); [|done].
    rewrite filter_cons. by rewrite decide_False.
  - intros libraryId password user Hsession. unfold handleSubmit in Hsession.
    destruct (studentLogin _ libraryId password) as [u|] eqn:Hlogin; [|done].
    simpl in Hsession. injection Hsession as ->.
    apply studentLogin_Some in Hlogin
      as (c & s & (b & a & _ & _ & Hcs & _) & ->).
    simpl. intros [= Hid].
    assert (Hc : c ∈ filter (λ c, classroom_id c ≠ cid) (classrooms σ)).
    { rewrite Hcs. apply elem_of_app. right. apply elem_of_cons. by left. }
    apply list_elem_of_filter in Hc as [Hc _]. done.
  - intros Hsel. rewrite (bool_decide_eq_true_2 _ Hsel).
    unfold students, selectedClassroom, classroomReports. simpl. split_and!.
    + assert (find (λ _ : Classroom, false)
                (filter (λ c, classroom_id c ≠ cid) (classrooms σ)) = None)
        as ->; [|done].
      by apply find_None_all.
    + done.
    + induction (filter _ (attendanceReports σ)) as [|r rs IH]; [done|].
      rewrite filter_cons. by rewrite decide_False.
Qed.

Lemma delete_classroom_access_witness :
  students (handleDeleteClassroom true "class-1" Sample.captured) = []
  ∧ dashboardStudent "student-1" "class-1"
      (classrooms (handleDeleteClassroom true "class-1" Sample.captured)) = None.
Proof.
  destruct (delete_classroom_access Sample.stamp "class-1" Sample.captured)
    as (Hprofile & _ & _ & Hselected).
  split.
  - apply Hselected. reflexivity.
  - apply Hprofile.
Defined.

(** ** Saving and loading *)

Lemma dataToSave_loadedClassrooms saved :
  dataToSave (loadedClassrooms saved) = saved.
Proof.
  unfold dataToSave, loadedClassrooms. rewrite map_map.
  rewrite <- (map_id saved) at 2. apply map_ext. intros [cid cname roster].
  simpl. f_equal. rewrite map_map.
  rewrite <- (map_id roster) at 2. apply map_ext. by intros [].
Qed.

Lemma loaded_students_in saved c s :
  c ∈ loadedClassrooms saved → s ∈ classroom_students c →
  student_password s = None
  ∧ student_imageUrl s
    = imageDataUrl (student_imageType s) (student_imageBase64 s).
Proof.
  unfold loadedClassrooms. intros Hc Hs.
  apply list_elem_of_fmap in Hc as (c0 & -> & _). simpl in Hs.
  apply list_elem_of_fmap in Hs as (s0 & -> & _). done.
Qed.

Lemma classrooms_reload σ :
  classrooms (reload σ) = loadedClassrooms (dataToSave (classrooms σ)).
Proof. unfold reload. by destruct (loadedReports [] (history σ)). Qed.

(** X7.  Loading what was saved keeps every classroom and, in roster
    order, every student's id, name, roll number and photo data, but no
    password: the image URL is rebuilt from the photo data, and afterwards
    no roll number and password log a student in.  Saving the loaded
    classrooms writes the same data again. *)
Theorem reload_classrooms (σ : AppState) :
  let loaded := classrooms (reload σ) in
  map (λ c, (classroom_id c, classroom_name c,
             map (λ s, (student_id s, student_name s, student_rollNumber s,
                        student_imageBase64 s, student_imageType s))
                 (classroom_students c))) loaded
  = map (λ c, (classroom_id c, classroom_name c,
               map (λ s, (student_id s, student_name s, student_rollNumber s,
                          student_imageBase64 s, student_imageType s))
                   (classroom_students c))) (classrooms σ)
  ∧ (∀ c s, c ∈ loaded → s ∈ classroom_students c →
       student_password s = None
       ∧ student_imageUrl s
         = imageDataUrl (student_imageType s) (student_imageBase64 s))
  ∧ (∀ libraryId password,
       handleSubmit loaded (Some StudentRole) libraryId password
       = mkLogin invalidCredentialsMessage None)
  ∧ dataToSave loaded = dataToSave (classrooms σ).
Proof.
  intros loaded. subst loaded. rewrite classrooms_reload. split_and!.
  - unfold loadedClassrooms, dataToSave. rewrite !map_map.
    apply map_ext. intros c. simpl. f_equal. by rewrite !map_map.
  - apply loaded_students_in.
  - intros libraryId password. unfold handleSubmit.
    assert (studentLogin (loadedClassrooms (dataToSave (classrooms σ)))
              libraryId password = None) as ->; [|done].
    apply studentLogin_None. intros c s Hc Hs [_ Hpw].
    destruct (loaded_students_in _ c s Hc Hs) as [Hnone _]. congruence.
  - apply dataToSave_loadedClassrooms.
Qed.

Lemma withAttendance_twice report m n :
  withAttendance (withAttendance report m) n = withAttendance report n.
Proof. done. Qed.

(** Loading saved reports: the store grows by one array per report, each
    report points to its own array and shows what was saved. *)
Lemma loadedReports_spec (saved : list (AttendanceReport * list AttendanceRecord)) :
  ∀ h : heap,
    Forall (λ s, withAttendance (fst s) 0 = fst s) saved →
    ∃ (ext : heap) reports,
      loadedReports h saved = (h ++ ext, reports)
      ∧ map (snapshot (h ++ ext)) reports = saved
      ∧ Forall (λ r, length h ≤ attendance r < length (h ++ ext)) reports
      ∧ NoDup (map attendance reports).
Proof.
  induction saved as [|[report records] saved IH]; intros h Hnorm; simpl.
  - exists [], []. rewrite app_nil_r. split_and!; try done; constructor.
  - apply Forall_cons in Hnorm as [Hreport Hnorm]. simpl in Hreport.
    destruct (IH (h ++ [records]) Hnorm) as (ext & reports & Hrun & Hsnap & Hrefs & Hnd).
    rewrite Hrun. exists ([records] ++ ext), (withAttendance report (length h) :: reports).
    rewrite (assoc_L (++)). split_and!.
    + done.
    + simpl. f_equal; [|done]. unfold snapshot. simpl.
      rewrite withAttendance_twice, Hreport. f_equal.
      rewrite readArray_app_l by (rewrite length_app; simpl; lia).
      apply readArray_fresh.
    + apply Forall_cons. split.
      * simpl. rewrite !length_app. simpl. lia.
      * eapply Forall_impl; [exact Hrefs|]. intros r. simpl.
        rewrite !length_app. simpl. lia.
    + simpl. apply NoDup_cons. split; [|done].
      intros Hin. apply list_elem_of_fmap in Hin as (r & Hr & Hin).
      rewrite Forall_forall in Hrefs. specialize (Hrefs r Hin). simpl in Hrefs.
      rewrite length_app in Hrefs. simpl in Hrefs. lia.
Qed.

Lemma history_normal σ :
  Forall (λ s, withAttendance (fst s) 0 = fst s) (history σ).
Proof.
  unfold history. apply Forall_fmap, Forall_forall. by intros r _.
Qed.


(** ** CSV export: what the in-place sort keeps *)

Lemma clickDownloadCSV_unfold (localeCompare : string → string → Z) σ active :
  activeReport σ = Some active → attendanceOf σ active ≠ [] →
  clickDownloadCSV localeCompare σ
  = let sorted := Js.sort (λ a b, localeCompare (rollNumber a) (rollNumber b))
                          (attendanceOf σ active) in
    (mkState (<[attendance active := sorted]> (store σ)) (classrooms σ)
             (attendanceReports σ) (selectedClassroomId σ) (activeReport σ)
             (error σ),
     Some (Js.join Js.nl (Js.join "," headers :: map csvRow sorted))).
Proof.
  intros Hact Hne. unfold clickDownloadCSV, handleDownloadCSV, attendanceOf in *.
  rewrite Hact.
  by rewrite bool_decide_eq_false_2
    by (by destruct (readArray (store σ) (attendance active))).
Qed.

Lemma clickDownloadCSV_nothing (localeCompare : string → string → Z) σ :
  (∀ active, activeReport σ = Some active → attendanceOf σ active = []) →
  clickDownloadCSV localeCompare σ = (σ, None).
Proof.
  intros Hempty. unfold clickDownloadCSV, handleDownloadCSV.
  destruct (activeReport σ) as [active|] eqn:Hact; [|done].
  specialize (Hempty active eq_refl). unfold attendanceOf in Hempty.
  rewrite Hempty. simpl. destruct σ; simpl in *. by subst.
Qed.

(** X9.  Downloading the CSV never changes which records a report holds:
    for every report the attendance afterwards is a rearrangement of the
    attendance before, and a report that does not hold the active report's
    array is not touched at all.  With a consistent collation a second
    download writes the same file and changes nothing more. *)
Theorem download_keeps_membership (localeCompare : string → string → Z)
    (σ : AppState) :
  consistent localeCompare →
  let σ1 := fst (clickDownloadCSV localeCompare σ) in
  (∀ report, attendanceOf σ1 report ≡ₚ attendanceOf σ report)
  ∧ (∀ active report,
       activeReport σ = Some active →
       attendance report ≠ attendance active →
       attendanceOf σ1 report = attendanceOf σ report)
  ∧ attendanceReports σ1 = attendanceReports σ
  ∧ activeReport σ1 = activeReport σ
  ∧ classrooms σ1 = classrooms σ
  ∧ clickDownloadCSV localeCompare σ1
    = (σ1, snd (clickDownloadCSV localeCompare σ)).
Proof.
  intros Hcons σ1.
  destruct (activeReport σ) as [active|] eqn:Hact.
  - destruct (decide (attendanceOf σ active = [])) as [Hempty|Hne].
    + assert (Hnothing : clickDownloadCSV localeCompare σ = (σ, None)).
      { apply clickDownloadCSV_nothing. intros a Ha. congruence. }
      subst σ1. rewrite Hnothing. simpl. split_and!; done.
    + assert (Hview := clickDownloadCSV_attendance localeCompare σ active).
      split_and!.
      * intros report. subst σ1. rewrite (Hview report Hact Hne).
        destruct (decide (attendance report = attendance active)) as [Heq|]; [|done].
        rewrite sort_Permutation. unfold attendanceOf. by rewrite Heq.
      * intros a report [= <-] Hother. subst σ1.
        rewrite (Hview report Hact Hne). by rewrite decide_False.
      * subst σ1. by rewrite (clickDownloadCSV_unfold _ _ _ Hact Hne).
      * subst σ1. by rewrite (clickDownloadCSV_unfold _ _ _ Hact Hne).
      * subst σ1. by rewrite (clickDownloadCSV_unfold _ _ _ Hact Hne).
      * assert (Hsorted : attendanceOf σ1 active
                          = Js.sort (λ a b, localeCompare (rollNumber a) (rollNumber b))
                                    (attendanceOf σ active)).
        { subst σ1. rewrite (Hview active Hact Hne). by rewrite decide_True. }
        assert (Hact1 : activeReport σ1 = Some active).
        { subst σ1. by rewrite (clickDownloadCSV_unfold _ _ _ Hact Hne). }
        assert (Hne1 : attendanceOf σ1 active ≠ []).
        { rewrite Hsorted. intros Hnil. apply Hne.
          apply Permutation_nil_r. rewrite <- Hnil. by rewrite sort_Permutation. }
        rewrite (clickDownloadCSV_unfold _ _ _ Hact1 Hne1).
        rewrite Hsorted.
        rewrite (sort_sorted_id _ (Js.sort _ _))
          by (apply sort_Sorted; intros a b; apply Hcons).
        subst σ1. rewrite (clickDownloadCSV_unfold _ _ _ Hact Hne). simpl.
        by rewrite list_insert_insert_eq.
  - assert (Hnothing : clickDownloadCSV localeCompare σ = (σ, None)).
    { apply clickDownloadCSV_nothing. intros a Ha. congruence. }
    subst σ1. rewrite Hnothing. simpl. split_and!; done.
Qed.

Lemma download_keeps_membership_witness :
  attendanceOf (fst (clickDownloadCSV Js.codeUnitCompare Sample.captured))
               (mkReport "report-1" "class-1" "Room 1" "2024-01-01T09:00:00.000Z"
                         "Math" 0 "data:image/png;base64,AA==" [] "Attentive.")
  ≡ₚ attendanceOf Sample.captured
       (mkReport "report-1" "class-1" "Room 1" "2024-01-01T09:00:00.000Z"
                 "Math" 0 "data:image/png;base64,AA==" [] "Attentive.").
Proof.
  apply (download_keeps_membership Js.codeUnitCompare Sample.captured).
  intros a b. apply codeUnitCompare_consistent.
Defined.

(** ** The student's attendance history *)

(** X10.  The student dashboard lists one line per report of the
    student's classroom that holds a record of the student, with the first
    such record of the report; it lists nothing else, never a record of
    another student, and the lines are ordered newest first. *)
Theorem student_history (getTime : string → Z) (h : heap)
    (reports : list AttendanceReport) (sid cid : string) :
  let items := studentRecords getTime h reports sid cid in
  StronglySorted (λ a b, (getTime (item_date b) ≤ getTime (item_date a))%Z) items
  ∧ (∀ item, item ∈ items ↔
       ∃ report record,
         report ∈ reports ∧ classroomId report = cid
         ∧ find (λ a, bool_decide (studentId a = sid))
                (readArray h (attendance report)) = Some record
         ∧ item = mkItem (id report) (period report) (date report) (Some record))
  ∧ (∀ item record,
       item ∈ items → item_record item = Some record →
       studentId record = sid)
  ∧ map item_reportId items
    ≡ₚ map id (filter (λ r, is_Some (find (λ a, bool_decide (studentId a = sid))
                                          (readArray h (attendance r))))
                      (filter (λ r, classroomId r = cid) reports)).
Proof.
  intros items.
  assert (Hmem : ∀ item, item ∈ items ↔
            ∃ report record,
              report ∈ reports ∧ classroomId report = cid
              ∧ find (λ a, bool_decide (studentId a = sid))
                     (readArray h (attendance report)) = Some record
              ∧ item = mkItem (id report) (period report) (date report)
                              (Some record)).
  { intros item. subst items. unfold studentRecords.
    rewrite sort_Permutation, list_elem_of_filter, list_elem_of_fmap. split.
    - intros ([record Hrecord] & report & -> & Hreport).
      apply list_elem_of_filter in Hreport as [Hcid Hreport].
      simpl in Hrecord. exists report, record. by rewrite Hrecord.
    - intros (report & record & Hreport & Hcid & Hfind & ->). simpl. split.
      + by eexists.
      + exists report. rewrite Hfind. split; [done|].
        by apply list_elem_of_filter. }
  split_and!.
  - subst items. unfold studentRecords.
    apply Sorted_StronglySorted; [intros a b c; lia|].
    eapply Sorted_weaken; [|apply sort_Sorted].
    + intros a b. unfold inOrder. lia.
    + intros a b. lia.
  - exact Hmem.
  - intros item record Hitem Hrecord.
    apply Hmem in Hitem as (report & record' & _ & _ & Hfind & ->).
    simpl in Hrecord. injection Hrecord as <-.
    apply find_Some_first in Hfind as (_ & _ & _ & Hsid & _).
    by apply bool_decide_eq_true in Hsid.
  - subst items. unfold studentRecords. rewrite sort_Permutation.
    induction (filter (λ r, classroomId r = cid) reports) as [|r rs IH];
      [done|].
    simpl. rewrite !filter_cons. simpl.
    destruct (decide (is_Some (find _ (readArray h (attendance r))))); simpl;
      by rewrite IH.
Qed.

(** ** From the login form to the dashboard *)

Lemma find_unique_key {A B} `{EqDecision B} (f : A → B) (l : list A) (x : A) :
  NoDup (map f l) → x ∈ l → find (λ y, bool_decide (f y = f x)) l = Some x.
Proof.
  induction l as [|a l IH]; simpl; intros Hnd Hx.
  - by apply elem_of_nil in Hx.
  - apply NoDup_cons in Hnd as [Hnotin Hnd].
    apply elem_of_cons in Hx as [->|Hx].
    + by rewrite bool_decide_eq_true_2.
    + rewrite bool_decide_eq_false_2; [by apply IH|].
      intros Heq. apply Hnotin. rewrite Heq. by apply (list_elem_of_fmap_2 f).
Qed.

(** X11.  When classroom ids are pairwise distinct, student ids are
    distinct within a classroom and no id is empty, a session created by
    the login form is never an invalid session: a teacher session shows
    the teacher dashboard, and a student session shows the student
    dashboard of a student whose roll number and password are the ones
    entered. *)
Theorem login_then_page (classrooms : list Classroom) (selected : option Role)
    (libraryId password : string) (user : LoggedInUser) :
  NoDup (map classroom_id classrooms) →
  (∀ c, c ∈ classrooms →
        classroom_id c ≠ EmptyString
        ∧ NoDup (map student_id (classroom_students c))
        ∧ ∀ s, s ∈ classroom_students c → student_id s ≠ EmptyString) →
  session (handleSubmit classrooms selected libraryId password) = Some user →
  (selected = Some Teacher ∧ App true None (Some user) = TeacherDashboard)
  ∨ (selected = Some StudentRole
     ∧ ∃ sid cid s,
         App true None (Some user) = StudentDashboard sid cid
         ∧ dashboardStudent sid cid classrooms = Some s
         ∧ student_id s = sid
         ∧ credentialsOf libraryId password s).
Proof.
  intros Hnd Hids Hsession. unfold handleSubmit in Hsession.
  destruct selected as [[]|]; [| |done].
  - left. split; [done|].
    destruct (_ && _); [|done]. simpl in Hsession. by injection Hsession as <-.
  - right. split; [done|].
    destruct (studentLogin classrooms libraryId password) as [u|] eqn:Hlogin;
      [|done].
    simpl in Hsession. injection Hsession as ->.
    apply studentLogin_Some in Hlogin
      as (c & s & (b & a & e & l & Hcs & Hst & _ & _ & Hcred) & ->).
    assert (Hc : c ∈ classrooms).
    { rewrite Hcs. apply elem_of_app. right. apply elem_of_cons. by left. }
    assert (Hs : s ∈ classroom_students c).
    { rewrite Hst. apply elem_of_app. right. apply elem_of_cons. by left. }
    destruct (Hids c Hc) as (Hcid & Hsnd & Hsid).
    exists (student_id s), (classroom_id c), s. split_and!; try done.
    + unfold App, sessionPage. simpl.
      rewrite (bool_decide_eq_false_2 (student_id s = EmptyString))
        by (by apply Hsid).
      by rewrite (bool_decide_eq_false_2 (classroom_id c = EmptyString)).
    + unfold dashboardStudent.
      rewrite (find_unique_key classroom_id classrooms c Hnd Hc).
      by apply find_unique_key.
Qed.

Lemma login_then_page_witness :
  ∃ s, dashboardStudent "student-2" "class-1" [Sample.room] = Some s
       ∧ credentialsOf "1" "pw-bob" s.
Proof.
  destruct (login_then_page [Sample.room] (Some StudentRole) "1" "pw-bob"
              (mkUser StudentRole (Some "student-2") (Some "class-1")))
    as [[[=] _]|(_ & sid & cid & s & Hpage & Hfound & _ & Hcred)].
  - repeat constructor. by intros ?%elem_of_nil.
  - intros c Hc. apply elem_of_cons in Hc as [->|Hc]; [|by apply elem_of_nil in Hc].
    split_and!; [done| |].
    + repeat constructor.
      * intros [[=]|?%elem_of_nil]%elem_of_cons; done.
      * by intros ?%elem_of_nil.
    + intros s [->|Hs]%elem_of_cons; [done|].
      apply elem_of_cons in Hs as [->|Hs]; [done|]. by apply elem_of_nil in Hs.
  - reflexivity.
  - vm_compute in Hpage. injection Hpage as <- <-. exists s. by split.
Defined.

(** ** The summary counters *)

Lemma present_absent_total (attendance : list AttendanceRecord) :
  presentCount attendance + length (filter (λ r, status r = Absent) attendance)
  = length attendance.
Proof.
  unfold presentCount. induction attendance as [|r rs IH]; [done|].
  rewrite !filter_cons.
  destruct r as [? ? ? []]; simpl;
    repeat (destruct (decide _) as [Heq|Hne]; try done); simpl; lia.
Qed.



(** ** Asking for an identification *)

Lemma elem_of_absentStudents σ active s :
  s ∈ absentStudents σ active ↔
  s ∈ students σ
  ∧ ∃ r, r ∈ attendanceOf σ active ∧ status r = Absent
         ∧ name r = student_name s.
Proof.
  unfold absentStudents, absentStudentNames.
  rewrite list_elem_of_filter, elem_of_list_to_set, list_elem_of_fmap.
  split.
  - intros [(r & Hname & Hr) Hs]. split; [done|].
    apply list_elem_of_filter in Hr as [Hstatus Hr]. by exists r.
  - intros [Hs (r & Hr & Hstatus & Hname)]. split; [|done].
    exists r. split; [done|]. by apply list_elem_of_filter.
Qed.

(** X13.  Identify sends at most one request.  With no active report it
    does nothing; when the crop fails it sends nothing and shows the crop's
    error.  Otherwise the candidates are exactly the students of the
    current roster whose name is the name of an Absent record of the
    active report: with no candidate nothing is sent and the suggestion is
    the no-candidates sentinel, and with candidates one request carries
    the cropped face and their names, and the suggestion is the trimmed
    answer. *)
Theorem identify_click (model : Request → option string)
    (cropped : string + Cropped) (face : DetectedFace) (σ : AppState) :
  let sent := fst (run model (handleIdentifyClick cropped face σ)) in
  let outcome := snd (run model (handleIdentifyClick cropped face σ)) in
  (length sent ≤ 1)%nat
  ∧ (activeReport σ = None → sent = [] ∧ outcome = inr None)
  ∧ (∀ active message,
       activeReport σ = Some active → cropped = inl message →
       sent = [] ∧ outcome = inl message)
  ∧ (∀ active crop,
       activeReport σ = Some active → cropped = inr crop →
       (∀ s, s ∈ absentStudents σ active ↔
             s ∈ students σ
             ∧ ∃ r, r ∈ attendanceOf σ active ∧ status r = Absent
                    ∧ name r = student_name s)
       ∧ (absentStudents σ active = [] →
          sent = []
          ∧ outcome = inr (Some (mkIdentifying face (Some noCandidatesMessage)
                                               (crop_dataUrl crop))))
       ∧ (absentStudents σ active ≠ [] →
          ∃ request,
            sent = [request]
            ∧ req_data request = crop_base64 crop
            ∧ req_mimeType request = crop_mimeType crop
            ∧ req_prompt request
              = identifyPrompt
                  (Js.join ", " (map student_name (absentStudents σ active)))
            ∧ outcome
              = match model request with
                | Some text =>
                    inr (Some (mkIdentifying face (Some (Js.trim text))
                                             (crop_dataUrl crop)))
                | None => inl identificationFailedMessage
                end)).
Proof.
  intros sent outcome. subst sent outcome. unfold handleIdentifyClick.
  destruct (activeReport σ) as [active|] eqn:Hact.
  - destruct cropped as [message|crop].
    + simpl. split_and!; try done.
      * lia.
      * by intros ? ? _ [= <-].
    + unfold identifyUnknownFace.
      destruct (absentStudents σ active) as [|s0 l] eqn:Habsent.
      * simpl. split_and!; try done; [lia|].
        intros a c [= <-] [= <-]. rewrite Habsent. split_and!; try done.
        intros s. rewrite <- Habsent. apply elem_of_absentStudents.
      * simpl. destruct (model _) as [text|] eqn:Hmodel; simpl.
        -- split_and!; try done.
           intros a c [= <-] [= <-]. rewrite Habsent. split_and!; try done.
           ++ intros s. rewrite <- Habsent. apply elem_of_absentStudents.
           ++ intros _. eexists. split; [reflexivity|]. simpl.
              by rewrite Hmodel.
        -- split_and!; try done.
           intros a c [= <-] [= <-]. rewrite Habsent. split_and!; try done.
           ++ intros s. rewrite <- Habsent. apply elem_of_absentStudents.
           ++ intros _. eexists. split; [reflexivity|]. simpl.
              by rewrite Hmodel.
  - simpl. split_and!; try done. lia.
Qed.

(** X14.  When no student of the roster is absent in the active report,
    Identify sends no request and suggests the no-candidates sentinel; the
    dialog offers Confirm for it, and confirming changes nothing as long as
    no student bears the sentinel as a name. *)
Theorem confirm_without_candidates (model : Request → option string)
    (eager : bool) (crop : Cropped) (face : DetectedFace) (σ : AppState)
    (active : AttendanceReport) :
  activeReport σ = Some active →
  absentStudents σ active = [] →
  (∀ s, s ∈ students σ → student_name s ≠ noCandidatesMessage) →
  ∃ result,
    run model (handleIdentifyClick (inr crop) face σ) = ([], inr (Some result))
    ∧ suggestion result = Some noCandidatesMessage
    ∧ offersConfirm result = true
    ∧ handleSuggestionConfirm eager noCandidatesMessage (face_id face) σ = σ.
Proof.
  intros Hact Habsent Hnames. unfold handleIdentifyClick, identifyUnknownFace.
  rewrite Hact, Habsent. simpl. eexists. split_and!; try reflexivity.
  unfold handleSuggestionConfirm.
  assert (find (λ s, bool_decide (student_name s = noCandidatesMessage))
               (students σ) = None) as ->; [|done].
  apply find_None_all. intros s Hs. apply bool_decide_eq_false. by apply Hnames.
Qed.

Lemma confirm_without_candidates_witness :
  let allPresent := handleStatusChange "student-2" "report-1" Sample.captured in
  ∃ result,
    run (λ _, Some "Bob")
        (handleIdentifyClick (inr (mkCropped "data:image/png;base64,BB==" "BB=="
                                             "image/png"))
           (mkFace "face-unknown-0.2" "Unknown" Sample.box) allPresent)
    = ([], inr (Some result))
    ∧ offersConfirm result = true.
Proof.
  intros allPresent.
  assert (Hactive : ∃ active, activeReport allPresent = Some active)
    by (eexists; reflexivity).
  destruct Hactive as [active Hactive].
  destruct (confirm_without_candidates (λ _, Some "Bob") true
              (mkCropped "data:image/png;base64,BB==" "BB==" "image/png")
              (mkFace "face-unknown-0.2" "Unknown" Sample.box) allPresent active)
    as (result & Hrun & _ & Hoffer & _).
  - exact Hactive.
  - vm_compute in Hactive. injection Hactive as <-. reflexivity.
  - intros s Hs. vm_compute in Hs.
    apply elem_of_cons in Hs as [->|Hs]; [done|].
    apply elem_of_cons in Hs as [->|Hs]; [done|].
    by apply elem_of_nil in Hs.
  - exists result. by split.
Defined.

(** ** Data URLs *)

Lemma append_cons c (s t : string) : String c s +:+ t = String c (s +:+ t).
Proof. reflexivity. Qed.

Lemma append_nil (t : string) : EmptyString +:+ t = t.
Proof. reflexivity. Qed.

Lemma length_append (s t : string) :
  String.length (s +:+ t) = String.length s + String.length t.
Proof.
  induction s as [|c s IH]; [done|]. rewrite append_cons. simpl. by rewrite IH.
Qed.

Lemma indexOf_lower c s : (-1 ≤ JsString.indexOf c s)%Z.
Proof.
  induction s as [|x s IH]; simpl; [lia|].
  destruct (decide (x = c)); [lia|]. destruct (decide _); lia.
Qed.

(** The first [c] of [p ++ c ++ q] when [p] holds none. *)
Lemma indexOf_app c (p q : string) :
  JsString.indexOf c p = (-1)%Z →
  JsString.indexOf c (p +:+ String c q) = Z.of_nat (String.length p).
Proof.
  induction p as [|x p IH]; intros Hp.
  - rewrite append_nil. simpl. by rewrite decide_True.
  - rewrite append_cons. simpl in *.
    destruct (decide (x = c)); [lia|].
    destruct (decide (JsString.indexOf c p = -1)%Z) as [Hnone|Hsome].
    + rewrite (IH Hnone). rewrite decide_False by lia. lia.
    + pose proof (indexOf_lower c p). lia.
Qed.

Lemma indexOf_app_none c (p q : string) :
  JsString.indexOf c p = (-1)%Z → JsString.indexOf c q = (-1)%Z →
  JsString.indexOf c (p +:+ q) = (-1)%Z.
Proof.
  induction p as [|x p IH]; intros Hp Hq; [done|].
  rewrite append_cons. simpl in *.
  destruct (decide (x = c)); [lia|].
  destruct (decide (JsString.indexOf c p = -1)%Z) as [Hnone|Hsome].
  - rewrite (IH Hnone Hq). by rewrite decide_True.
  - pose proof (indexOf_lower c p). lia.
Qed.

Lemma firstPiece_none c s :
  JsString.indexOf c s = (-1)%Z → JsString.firstPiece c s = s.
Proof.
  induction s as [|x s IH]; simpl; [done|].
  destruct (decide (x = c)); [lia|].
  destruct (decide (JsString.indexOf c s = -1)%Z) as [Hnone|Hsome].
  - intros _. by rewrite IH.
  - pose proof (indexOf_lower c s). lia.
Qed.

Lemma secondPiece_app c (p q : string) :
  JsString.indexOf c p = (-1)%Z →
  JsString.secondPiece c (p +:+ String c q) = Some (JsString.firstPiece c q).
Proof.
  induction p as [|x p IH]; intros Hp.
  - rewrite append_nil. simpl. by rewrite decide_True.
  - rewrite append_cons. simpl in *.
    destruct (decide (x = c)); [lia|].
    destruct (decide (JsString.indexOf c p = -1)%Z) as [Hnone|Hsome].
    + by apply IH.
    + pose proof (indexOf_lower c p). lia.
Qed.

Lemma substring_prefix (t q : string) :
  String.substring 0 (String.length t) (t +:+ q) = t.
Proof.
  induction t as [|x t IH].
  - rewrite append_nil. simpl. by destruct q.
  - rewrite append_cons. simpl. by rewrite IH.
Qed.

Lemma substring_skip (p s : string) n :
  String.substring (String.length p) n (p +:+ s) = String.substring 0 n s.
Proof.
  induction p as [|x p IH]; [done|]. rewrite append_cons. simpl. apply IH.
Qed.

(** X15.  The data URL the load effect builds from a student's image type
    and photo data is taken apart again by the file helpers: when the type
    holds no semicolon and no comma and the data holds no comma, the
    base64 part is the photo data, and the mime type read by the crop is
    the image type, or image/jpeg when the type is empty. *)
Theorem data_url_round_trip (imageType imageBase64 : string) :
  JsString.indexOf (Ascii.ascii_of_nat 59) imageType = (-1)%Z →
  JsString.indexOf (Ascii.ascii_of_nat 44) imageType = (-1)%Z →
  JsString.indexOf (Ascii.ascii_of_nat 44) imageBase64 = (-1)%Z →
  base64Part (imageDataUrl imageType imageBase64) = Some imageBase64
  ∧ cropMimeType (imageDataUrl imageType imageBase64)
    = if decide (imageType = EmptyString) then "image/jpeg" else imageType.
Proof.
  intros Hsemi Hcomma Hdata. split.
  - unfold base64Part, imageDataUrl.
    change ("data:" +:+ imageType +:+ ";base64," +:+ imageBase64)
      with ("data:" +:+ (imageType +:+ (";base64" +:+ String (Ascii.ascii_of_nat 44) imageBase64))).
    rewrite <- !string_app_assoc.
    rewrite secondPiece_app.
    + by rewrite firstPiece_none.
    + rewrite string_app_assoc. apply indexOf_app_none; [done|].
      by apply indexOf_app_none.
  - unfold cropMimeType, imageDataUrl.
    assert (Hindex : JsString.indexOf (Ascii.ascii_of_nat 59)
                       ("data:" +:+ imageType +:+ ";base64," +:+ imageBase64)
                     = Z.of_nat (5 + String.length imageType)).
    { change ("data:" +:+ imageType +:+ ";base64," +:+ imageBase64)
        with ("data:" +:+ (imageType +:+ String (Ascii.ascii_of_nat 59)
                                               ("base64," +:+ imageBase64))).
      rewrite <- string_app_assoc. rewrite indexOf_app.
      - by rewrite length_append.
      - by apply indexOf_app_none. }
    rewrite Hindex. unfold JsString.substring.
    rewrite !length_append. simpl String.length.
    replace (Z.min (Z.max 5 0) _) with 5%Z by lia.
    replace (Z.min (Z.max (Z.of_nat (5 + String.length imageType)) 0) _)
      with (Z.of_nat (5 + String.length imageType)) by lia.
    replace (Z.to_nat (Z.min 5 (Z.of_nat (5 + String.length imageType))))
      with (String.length "data:") by (simpl; lia).
    replace (Z.to_nat (Z.max 5 (Z.of_nat (5 + String.length imageType))
                       - Z.min 5 (Z.of_nat (5 + String.length imageType))))
      with (String.length imageType) by lia.
    rewrite substring_skip, substring_prefix.
    destruct (decide (imageType = EmptyString)) as [->|Hne]; [done|].
    by rewrite bool_decide_eq_false_2.
Qed.

Lemma data_url_round_trip_witness :
  base64Part (imageDataUrl "image/png" "QQ==") = Some "QQ=="
  ∧ cropMimeType (imageDataUrl "image/png" "QQ==") = "image/png".
Proof.
  apply (data_url_round_trip "image/png" "QQ=="); reflexivity.
Defined.

(** X16.  For an image URL without a semicolon the crop does not fall
    back to image/jpeg: [indexOf] gives -1, [substring] swaps its bounds,
    and the mime type is the first five characters of the URL (the whole
    URL when it is shorter); image/jpeg is used only for the empty URL. *)
Theorem crop_mime_type_without_semicolon (imageUrl : string) :
  JsString.indexOf (Ascii.ascii_of_nat 59) imageUrl = (-1)%Z →
  cropMimeType imageUrl
  = if decide (imageUrl = EmptyString) then "image/jpeg"
    else String.substring 0 (Nat.min 5 (String.length imageUrl)) imageUrl.
Proof.
  intros Hnone. unfold cropMimeType, JsString.substring. rewrite Hnone.
  replace (Z.min (Z.max (-1) 0) _) with 0%Z by lia.
  replace (Z.to_nat (Z.min _ 0)) with 0 by lia.
  replace (Z.to_nat (Z.max (Z.min (Z.max 5 0) (Z.of_nat (String.length imageUrl))) 0
                     - Z.min (Z.min (Z.max 5 0) (Z.of_nat (String.length imageUrl))) 0))
    with (Nat.min 5 (String.length imageUrl)) by lia.
  destruct imageUrl as [|c rest]; [done|].
  rewrite decide_False by done.
  destruct (Nat.min 5 (String.length (String c rest))) as [|n] eqn:Hmin;
    [simpl in Hmin; lia|].
  by rewrite bool_decide_eq_false_2.
Qed.

Lemma crop_mime_type_without_semicolon_witness :
  cropMimeType "data:image/png,raw" = "data:".
Proof.
  apply (crop_mime_type_without_semicolon "data:image/png,raw"). reflexivity.
Defined.

(** ** The name of the downloaded file *)

Lemma safe_char (c : Ascii.ascii) :
  isFileNameChar
    (Js.lowerChar (if JsString.isAlphaNumeric c then c else Ascii.ascii_of_nat 95))
  = true.
Proof. destruct c as [[] [] [] [] [] [] [] []]; reflexivity. Qed.

Lemma fileNameChar_fixed (c : Ascii.ascii) :
  isFileNameChar c = true →
  Js.lowerChar (if JsString.isAlphaNumeric c then c else Ascii.ascii_of_nat 95) = c.
Proof. destruct c as [[] [] [] [] [] [] [] []]; (reflexivity || discriminate). Qed.

(** X17.  The part of the file name made from the classroom name or the
    period has the length of its source and consists of lower-case ASCII
    letters, digits and underscores only; making it safe again changes
    nothing. *)
Theorem safe_name_characters (s : string) :
  String.length (safeName s) = String.length s
  ∧ Forall (λ c, isFileNameChar c = true) (String.list_ascii_of_string (safeName s))
  ∧ safeName (safeName s) = safeName s.
Proof.
  unfold safeName. induction s as [|c s (Hlen & Hall & Hidem)]; simpl.
  - split_and!; [done|constructor|done].
  - split_and!.
    + by rewrite Hlen.
    + constructor; [apply safe_char|done].
    + rewrite Hidem. f_equal. apply fileNameChar_fixed, safe_char.
Qed.

(** ** Reading the name back from a CSV row *)

Lemma collapse_doubleQuotes (s : string) :
  collapseQuotes (Js.doubleQuotes s) = s.
Proof.
  induction s as [|c s IH]; [done|]. simpl.
  destruct (decide (Ascii.nat_of_ascii c = 34%nat)) as [Hq|Hq].
  - assert (c = Ascii.ascii_of_nat 34) as ->
      by (by rewrite <- Hq, Ascii.ascii_nat_embedding).
    change (Js.dq +:+ Js.dq +:+ Js.doubleQuotes s)
      with (String (Ascii.ascii_of_nat 34)
              (String (Ascii.ascii_of_nat 34) (Js.doubleQuotes s))).
    simpl. by rewrite IH.
  - simpl. rewrite decide_False by done. by rewrite IH.
Qed.

(** X18.  The name field of a CSV row can always be read back: the row is
    the roll number, a comma, the quoted field, a comma and the status, and
    replacing each pair of double quotes of the field by one gives the
    student's name.  So two records with different names never get the
    same field. *)
Theorem csv_name_round_trip (record other : AttendanceRecord) :
  (∃ field,
     csvRow record
     = rollNumber record +:+ "," +:+ Js.dq +:+ field +:+ Js.dq +:+ ","
       +:+ statusString (status record)
     ∧ collapseQuotes field = name record)
  ∧ (Js.doubleQuotes (name record) = Js.doubleQuotes (name other) →
     name record = name other).
Proof.
  split.
  - exists (Js.doubleQuotes (name record)). split.
    + apply csvRow_csvLine.
    + apply collapse_doubleQuotes.
  - intros Heq. rewrite <- (collapse_doubleQuotes (name record)), Heq.
    apply collapse_doubleQuotes.
Qed.

(** ** The recognition call *)

Lemma withIds_lookup prefix random (faces : list RawFace) :
  ∀ start i p,
    faces !! i = Some p →
    withIds prefix random start faces !! i
    = Some (mkFace (prefix p +:+ random (start + i)) (raw_name p) (raw_box p)).
Proof.
  induction faces as [|q faces IH]; intros start [|i] p Hp; simpl in *; try done.
  - injection Hp as ->. by rewrite Nat.add_0_r.
  - rewrite (IH (S start) i p Hp).
    by replace (S start + i) with (start + S i) by lia.
Qed.

Lemma withIds_length prefix random start (faces : list RawFace) :
  length (withIds prefix random start faces) = length faces.
Proof.
  revert start. induction faces as [|q faces IH]; intros start; simpl; [done|].
  by rewrite IH.
Qed.

Lemma withIds_names prefix random start (faces : list RawFace) :
  map face_name (withIds prefix random start faces) = map raw_name faces
  ∧ map face_box (withIds prefix random start faces) = map raw_box faces.
Proof.
  revert start. induction faces as [|q faces IH]; intros start; simpl; [done|].
  destruct (IH (S start)) as [-> ->]. done.
Qed.

Lemma append_inj_r (p a b : string) : p +:+ a = p +:+ b → a = b.
Proof.
  induction p as [|c p IH]; [done|]. rewrite !append_cons. intros [= H].
  by apply IH.
Qed.

Lemma withIds_NoDup (fixed : string) random start (faces : list RawFace) :
  (∀ i j, random i = random j → i = j) →
  NoDup (map face_id (withIds (λ _, fixed) random start faces)).
Proof.
  intros Hinj. revert start.
  assert (Hlater : ∀ faces start i,
            fixed +:+ random i ∈ map face_id (withIds (λ _, fixed) random start faces) →
            (start ≤ i)%nat).
  { clear faces. induction faces as [|q faces IH]; intros start i Hin; simpl in *.
    - by apply elem_of_nil in Hin.
    - apply elem_of_cons in Hin as [Heq|Hin].
      + apply append_inj_r, Hinj in Heq. lia.
      + apply IH in Hin. lia. }
  induction faces as [|q faces IH]; intros start; simpl; [constructor|].
  apply NoDup_cons. split; [|apply IH].
  intros Hin. apply Hlater in Hin. lia.
Qed.

(** The two ways the call ends. *)
Lemma takeAttendanceFromImages_cases (called : string + string)
    (parse : string → string + RawResponse) (random : nat → string) :
  (∃ message,
     takeAttendanceFromImages called parse random = inl message
     ∧ (message = invalidKeyMessage ∨ message = noValidResponseMessage))
  ∨ (∃ text raw,
       called = inr text ∧ parse (Js.trim text) = inr raw
       ∧ takeAttendanceFromImages called parse random
         = inr (mkResponse
                  (withIds (λ p, "face-" +:+ raw_name p +:+ "-") random 0
                           (raw_present raw))
                  (withIds (λ _, "face-unknown-") random
                           (length (raw_present raw)) (raw_unknown raw))
                  (raw_absent raw) (raw_engagementSummary raw))).
Proof.
  unfold takeAttendanceFromImages, attendanceError.
  destruct called as [message|text].
  - left. eexists. split; [reflexivity|]. destruct (_ || _); [by left|by right].
  - destruct (parse (Js.trim text)) as [message|raw] eqn:Hparse.
    + left. eexists. split; [reflexivity|]. destruct (_ || _); [by left|by right].
    + right. by exists text, raw.
Qed.

(** X19.  Whatever goes wrong in the recognition call, the error shown is
    one of two fixed messages.  When the answer parses, the result lists
    the faces the model returned, in the same order and with the same names
    and boxes; the [i]-th present face gets the id made of [face-], its
    name and the [i]-th random number, and the unknown faces get
    [face-unknown-] and the following random numbers, so the ids of the
    unknown faces are pairwise distinct when the random numbers are. *)
Theorem recognition_result (called : string + string)
    (parse : string → string + RawResponse) (random : nat → string) :
  match takeAttendanceFromImages called parse random with
  | inl message =>
      message = invalidKeyMessage ∨ message = noValidResponseMessage
  | inr result =>
      ∃ text raw,
        called = inr text ∧ parse (Js.trim text) = inr raw
        ∧ map face_name (present result) = map raw_name (raw_present raw)
        ∧ map face_box (present result) = map raw_box (raw_present raw)
        ∧ map face_name (unknown result) = map raw_name (raw_unknown raw)
        ∧ map face_box (unknown result) = map raw_box (raw_unknown raw)
        ∧ absent result = raw_absent raw
        ∧ resp_engagementSummary result = raw_engagementSummary raw
        ∧ (∀ i p, raw_present raw !! i = Some p →
             face_id <$> present result !! i
             = Some ("face-" +:+ raw_name p +:+ "-" +:+ random i))
        ∧ (∀ i p, raw_unknown raw !! i = Some p →
             face_id <$> unknown result !! i
             = Some ("face-unknown-" +:+ random (length (raw_present raw) + i)))
        ∧ ((∀ i j, random i = random j → i = j) →
           NoDup (map face_id (unknown result)))
  end.
Proof.
  destruct (takeAttendanceFromImages_cases called parse random)
    as [(message & -> & Hmessage)|(text & raw & Hcalled & Hparse & ->)];
    [done|].
  exists text, raw. simpl.
  destruct (withIds_names (λ p, "face-" +:+ raw_name p +:+ "-") random 0
              (raw_present raw)) as [-> ->].
  destruct (withIds_names (λ _, "face-unknown-") random
              (length (raw_present raw)) (raw_unknown raw)) as [-> ->].
  split_and!; try done.
  - intros i p Hp. rewrite (withIds_lookup _ _ _ 0 i p Hp). simpl.
    by rewrite !string_app_assoc.
  - intros i p Hp. by rewrite (withIds_lookup _ _ _ _ i p Hp).
  - apply withIds_NoDup.
Qed.



(** ** What a status toggle leaves alone *)

(** X21.  In every state without dangling references a status toggle
    keeps the reports, their order and all their fields, and in every
    report the records, their order, student ids, names and roll numbers.
    A record is changed only if its report has the given id and itself the
    given student id, and then only its status changes; classrooms,
    selection and error are untouched.  No uniqueness of ids is needed. *)
Theorem toggle_changes_status_only (sid rid : string) (σ : AppState) :
  wellFormed σ →
  let σ1 := handleStatusChange sid rid σ in
  map fst (history σ1) = map fst (history σ)
  ∧ Forall2
      (λ s1 s,
         Forall2
           (λ r1 r,
              studentId r1 = studentId r ∧ name r1 = name r
              ∧ rollNumber r1 = rollNumber r
              ∧ (id (fst s) ≠ rid ∨ studentId r ≠ sid → r1 = r)
              ∧ (id (fst s) = rid → studentId r = sid → status r1 ≠ status r))
           (snd s1) (snd s))
      (history σ1) (history σ)
  ∧ classrooms σ1 = classrooms σ
  ∧ selectedClassroomId σ1 = selectedClassroomId σ
  ∧ error σ1 = error σ.
Proof.
  intros Hwf σ1.
  destruct (handleStatusChange_history sid rid σ Hwf) as (Hhist & _ & Hcl & Hsel).
  subst σ1. rewrite Hhist. split_and!; try done.
  - rewrite map_map. apply map_ext. intros s. unfold toggledSnapshot.
    by destruct (decide _).
  - apply Forall2_fmap_l, Forall_Forall2_diag, Forall_forall. intros s _.
    unfold toggledSnapshot. simpl.
    destruct (decide (id (fst s) = rid)) as [Hid|Hid]; simpl.
    + unfold newAttendance.
      apply Forall2_fmap_l, Forall_Forall2_diag, Forall_forall. intros r _.
      simpl. destruct (decide (studentId r = sid)) as [Hr|Hr].
      * split_and!; try done.
        -- by intros [?|?].
        -- intros _ _. by destruct r as [? ? ? []].
      * split_and!; done.
    + apply Forall_Forall2_diag, Forall_forall. intros r _.
      split_and!; done.
  - unfold handleStatusChange.
    by destruct (statusUpdater _ _ _ _ _) as [[? ?] ?].
Qed.

Lemma toggle_changes_status_only_witness :
  map fst (history (handleStatusChange "student-2" "report-1" Sample.captured))
  = map fst (history Sample.captured).
Proof.
  apply (toggle_changes_status_only "student-2" "report-1" Sample.captured).
  split.
  - repeat constructor.
  - intros r [= <-]. vm_compute. lia.
Defined.

(** ** The history stays newest first *)

Lemma sorted_same_dates (getTime : string → Z) (l1 l2 : list AttendanceReport) :
  map date l1 = map date l2 →
  StronglySorted (notOlder getTime) l1 → StronglySorted (notOlder getTime) l2.
Proof.
  intros Hdates Hsorted. revert l2 Hdates.
  induction Hsorted as [|a l1 Hl1 IH Hall]; intros [|b l2] Hdates; try done.
  - constructor.
  - simpl in Hdates. injection Hdates as Hab Hrest.
    constructor; [by apply IH|].
    rewrite Forall_forall in *. intros r Hr.
    assert (Hdate : date r ∈ map date l1).
    { rewrite Hrest. by apply (list_elem_of_fmap_2 date). }
    apply list_elem_of_fmap in Hdate as (r1 & Hdate & Hr1).
    specialize (Hall r1 Hr1). unfold notOlder in *.
    by rewrite <- Hab, Hdate.
Qed.

Lemma statusUpdater_fields active sid rid (h : heap) reports :
  Forall (λ r, attendance r < length h) reports →
  map (λ r, withAttendance r 0) (statusUpdater active sid rid h reports).1.2
  = map (λ r, withAttendance r 0) reports.
Proof.
  intros Hrefs.
  destruct (statusUpdater_spec active sid rid reports h Hrefs)
    as (ext & reports' & shown & -> & _ & Hsnap & _).
  simpl. apply (f_equal (map fst)) in Hsnap.
  rewrite !map_map in Hsnap. simpl in Hsnap. rewrite Hsnap.
  apply map_ext. intros r. unfold toggledSnapshot. simpl. by destruct (decide _).
Qed.

Lemma fields_dates (l1 l2 : list AttendanceReport) :
  map (λ r, withAttendance r 0) l1 = map (λ r, withAttendance r 0) l2 →
  map (λ r, (id r, date r)) l1 = map (λ r, (id r, date r)) l2.
Proof.
  intros H. apply (f_equal (map (λ r, (id r, date r)))) in H.
  by rewrite !map_map in H.
Qed.

(** X22.  Once the report history is ordered newest first it stays so:
    status toggles, classroom deletion, CSV download, captures (failed or
    not) and saving and loading keep the order, and so does confirming an
    identification when the active report carries the date of the listed
    report with its id. *)
Theorem history_order_kept (getTime : string → Z) (σ : AppState) :
  wellFormed σ →
  StronglySorted (notOlder getTime) (attendanceReports σ) →
  (∀ sid rid,
     StronglySorted (notOlder getTime)
       (attendanceReports (handleStatusChange sid rid σ)))
  ∧ (∀ confirmed cid,
       StronglySorted (notOlder getTime)
         (attendanceReports (handleDeleteClassroom confirmed cid σ)))
  ∧ (∀ localeCompare,
       StronglySorted (notOlder getTime)
         (attendanceReports (fst (clickDownloadCSV localeCompare σ))))
  ∧ (∀ localeCompare imageFile period outcome reportId now,
       StronglySorted (notOlder getTime)
         (attendanceReports
            (handleTakeAttendance localeCompare getTime imageFile period
               outcome reportId now σ)))
  ∧ StronglySorted (notOlder getTime) (attendanceReports (reload σ))
  ∧ (∀ eager suggestedName faceId,
       (∀ active r, activeReport σ = Some active → r ∈ attendanceReports σ →
                    id r = id active → date r = date active) →
       StronglySorted (notOlder getTime)
         (attendanceReports (handleSuggestionConfirm eager suggestedName faceId σ))).
Proof.
  intros [Hrefs Hactive] Hsorted. split_and!.
  - intros sid rid. unfold handleStatusChange.
    pose proof (statusUpdater_fields (activeReport σ) sid rid (store σ)
                  (attendanceReports σ) Hrefs) as Hfields.
    destruct (statusUpdater _ _ _ _ _) as [[h reports] shown]. simpl in *.
    apply (sorted_same_dates getTime (attendanceReports σ)); [|done].
    apply fields_dates in Hfields. apply (f_equal (map snd)) in Hfields.
    by rewrite !map_map in Hfields.
  - intros [] cid; [|done]. simpl.
    clear -Hsorted. induction Hsorted as [|r rs Hrs IH Hall]; [constructor|].
    rewrite filter_cons. destruct (decide _); [|done].
    constructor; [done|]. rewrite Forall_forall in *. intros r' Hr'.
    apply list_elem_of_filter in Hr' as [_ Hr']. by apply Hall.
  - intros localeCompare. unfold clickDownloadCSV.
    destruct (activeReport σ) as [active|]; [|done].
    by destruct (handleDownloadCSV _ _ _).
  - intros localeCompare imageFile period outcome reportId now.
    unfold handleTakeAttendance.
    destruct imageFile as [image|], (selectedClassroom σ) as [selected|];
      try done.
    destruct (_ || _); [done|]. destruct outcome as [message|result]; [done|].
    simpl. apply insertReport_notOlder.
  - destruct (loadedReports_spec (history σ) [] (history_normal σ))
      as (ext & reports & Hrun & Hsnap & _).
    unfold reload. rewrite Hrun. simpl.
    apply (sorted_same_dates getTime (attendanceReports σ)); [|done].
    apply (f_equal (map (λ s, date (fst s)))) in Hsnap.
    unfold history in Hsnap. rewrite !map_map in Hsnap. done.
  - intros eager suggestedName faceId Hdate. unfold handleSuggestionConfirm.
    destruct (find _ (students σ)) as [student|]; [|done].
    destruct (activeReport σ) as [active|] eqn:Hact; [|done].
    pose proof (statusUpdater_fields (Some active) (student_id student)
                  (id active) (store σ) (attendanceReports σ) Hrefs) as Hfields.
    destruct (statusUpdater _ _ _ _ _) as [[h reports] shown]. simpl in *.
    apply fields_dates in Hfields.
    apply (sorted_same_dates getTime (attendanceReports σ)); [|done].
    rewrite map_map.
    transitivity (map snd (map (λ r, (id r, date r)) (attendanceReports σ)));
      [by rewrite map_map|].
    rewrite <- Hfields, map_map. apply map_ext_in. intros r Hr. simpl.
    destruct (decide (id r = id active)) as [Hid|]; [|done]. simpl.
    assert (Hpair : (id r, date r) ∈ map (λ r, (id r, date r)) (attendanceReports σ)).
    { rewrite <- Hfields. apply (list_elem_of_fmap_2 (λ r, (id r, date r))).
      by apply list_elem_of_In. }
    apply list_elem_of_fmap in Hpair as (r0 & [= Hid0 Hdate0] & Hr0).
    rewrite Hdate0. apply (Hdate active r0 eq_refl Hr0). congruence.
Qed.

Lemma history_order_kept_witness :
  StronglySorted (notOlder Sample.stamp)
    (attendanceReports (handleStatusChange "student-2" "report-1" Sample.captured)).
Proof.
  apply (history_order_kept Sample.stamp Sample.captured).
  - split.
    + repeat constructor.
    + intros r [= <-]. vm_compute. lia.
  - repeat constructor.
Defined.

(** ** What a confirmed identification changes *)

(** X23.  Confirming a name borne by a roster student relabels, in the
    active report's copy, exactly the faces with the given id: face ids,
    boxes and order stay, faces with another id are untouched.  In the
    persisted history every report with another id is left as it was, and
    a report with the active report's id becomes that copy, with the
    attendance records the active report had before. *)
Theorem confirm_relabels_faces (eager : bool) (suggestedName faceId : string)
    (σ : AppState) (student : Student) (active : AttendanceReport) :
  wellFormed σ →
  find (λ s, bool_decide (student_name s = suggestedName)) (students σ)
    = Some student →
  activeReport σ = Some active →
  let σ' := handleSuggestionConfirm eager suggestedName faceId σ in
  let faces := relabel faceId suggestedName (detectedFaces active) in
  map face_id faces = map face_id (detectedFaces active)
  ∧ map face_box faces = map face_box (detectedFaces active)
  ∧ Forall2 (λ f' f, if decide (face_id f = faceId)
                     then face_name f' = suggestedName else f' = f)
            faces (detectedFaces active)
  ∧ Forall2 (λ s' s, if decide (id (fst s) = id active)
                     then fst s' = withAttendance (withDetectedFaces active faces) 0
                          ∧ snd s' = attendanceOf σ active
                     else s' = s)
            (history σ') (history σ)
  ∧ classrooms σ' = classrooms σ
  ∧ selectedClassroomId σ' = selectedClassroomId σ.
Proof.
  intros Hwf Hfind Hact σ' faces.
  assert (Hname : student_name student = suggestedName).
  { apply find_Some_first in Hfind as (_ & _ & _ & Hs & _).
    by apply bool_decide_eq_true in Hs. }
  split_and!.
  - subst faces. unfold relabel. rewrite map_map. apply map_ext.
    intros f. by destruct (decide _).
  - subst faces. unfold relabel. rewrite map_map. apply map_ext.
    intros f. by destruct (decide _).
  - subst faces. unfold relabel.
    apply Forall2_fmap_l, Forall_Forall2_diag, Forall_forall. intros f _.
    simpl. by destruct (decide (face_id f = faceId)).
  - subst σ'.
    rewrite (handleSuggestionConfirm_history eager suggestedName faceId σ
               student active Hwf Hfind Hact).
    apply Forall2_fmap_l, Forall_Forall2_diag, Forall_forall. intros s _.
    simpl. destruct (decide (id (fst s) = id active)); [|done].
    simpl. subst faces. by rewrite Hname.
  - subst σ'. unfold handleSuggestionConfirm. rewrite Hfind, Hact.
    by destruct (statusUpdater _ _ _ _ _) as [[? ?] ?].
  - subst σ'. unfold handleSuggestionConfirm. rewrite Hfind, Hact.
    by destruct (statusUpdater _ _ _ _ _) as [[? ?] ?].
Qed.

Lemma confirm_relabels_faces_witness :
  ∃ active,
    activeReport Sample.captured = Some active
    ∧ map face_id (relabel "face-unknown-0.2" "Bob" (detectedFaces active))
      = map face_id (detectedFaces active).
Proof.
  assert (Hactive : ∃ active, activeReport Sample.captured = Some active)
    by (eexists; reflexivity).
  destruct Hactive as [active Hactive]. exists active. split; [exact Hactive|].
  apply (confirm_relabels_faces true "Bob" "face-unknown-0.2" Sample.captured
           Sample.bob active).
  - split.
    + repeat constructor.
    + intros r [= <-]. vm_compute. lia.
  - reflexivity.
  - exact Hactive.
Defined.

(** ** The request of the recognition call *)



(** ** Renaming a classroom *)



(** ** Adding a student through the form, then logging in *)



(** ** Toggling what is not there *)

(** X27.  A status toggle for a report id that is not in the history, or
    for a student id without a record in the reports with that id, is a
    silent no-op: the persisted history is unchanged. *)
Theorem toggle_missing_ids (sid rid : string) (σ : AppState) :
  wellFormed σ →
  (∀ report r, report ∈ attendanceReports σ → id report = rid →
               r ∈ attendanceOf σ report → studentId r ≠ sid) →
  history (handleStatusChange sid rid σ) = history σ.
Proof.
  intros Hwf Hmissing.
  destruct (handleStatusChange_history sid rid σ Hwf) as (-> & _).
  rewrite <- (map_id (history σ)) at 2. apply map_ext_in. intros s Hs.
  apply list_elem_of_In in Hs. unfold history in Hs.
  apply list_elem_of_fmap in Hs as (report & -> & Hreport).
  unfold toggledSnapshot, snapshot. simpl.
  destruct (decide (id report = rid)) as [Hid|]; [|done]. f_equal.
  unfold newAttendance.
  rewrite <- (map_id (readArray _ _)) at 2. apply map_ext_in. intros r Hr.
  apply list_elem_of_In in Hr.
  rewrite decide_False; [done|]. by apply (Hmissing report r).
Qed.

Lemma toggle_missing_ids_witness :
  history (handleStatusChange "student-9" "report-1" Sample.captured)
  = history Sample.captured.
Proof.
  apply (toggle_missing_ids "student-9" "report-1" Sample.captured).
  - split.
    + repeat constructor.
    + intros r [= <-]. vm_compute. lia.
  - intros report r Hreport _ Hr.
    vm_compute in Hreport.
    apply elem_of_cons in Hreport as [->|Hreport];
      [|by apply elem_of_nil in Hreport].
    vm_compute in Hr.
    apply elem_of_cons in Hr as [->|Hr]; [done|].
    apply elem_of_cons in Hr as [->|Hr]; [done|].
    by apply elem_of_nil in Hr.
Defined.
